(** * PasswordMemo: the theme-switching verification script

    A shallow embedding of
    [jules-scratch/verification/verify_theme_switching.py], the Playwright
    script that loads the Password Memo browser extension, discovers its
    identifier, opens the options page and takes three screenshots.

    The script is a straight line of calls into the browser, so the
    embedding is an exception-and-state monad over a small world (the call
    log, the directories and the files written), an environment record that
    plays the browser, and the script itself written in that monad, line by
    line.  The string operations the script uses ([startswith], [split],
    [in], [==]) are functions on [string]. *)

From Stdlib Require Import Ascii ZArith.
From stdpp Require Import base option list strings gmap.

Local Open Scope Z_scope.

(** ** Python strings *)

Module Py.

(** [s.startswith(p)] *)
Definition startswith (s p : string) : bool := String.prefix p s.

(** [needle in hay]: [needle] is a prefix of some suffix of [hay]. *)
Fixpoint contains (needle hay : string) : bool :=
String.prefix needle hay ||
match hay with
| EmptyString => false
| String _ hay' => contains needle hay'
end.

(** [s.split(sep)] for a separator of one character: every occurrence of
  [sep] ends a field, so the result has one more field than [s] has
  separators and is never empty. *)
Fixpoint split (sep : ascii) (s : string) : list string :=
match s with
| EmptyString => [EmptyString]
| String c s' =>
    if Ascii.eqb c sep then EmptyString :: split sep s'
    else match split sep s' with
         | [] => [String c EmptyString]
         | field :: fields => String c field :: fields
         end
end.

(** The truth value of a [str]: only the empty string is falsy. *)
Definition truthy_str (s : string) : bool := negb (String.eqb s "").

(** The truth value of a variable holding [None] or a [str]. *)
Definition truthy (v : option string) : bool :=
match v with
| None => false
| Some s => truthy_str s
end.

(** Occurrences of a character, used to say that an identifier has no
  ["/"] in it. *)
Fixpoint has_char (c : ascii) (s : string) : bool :=
match s with
| EmptyString => false
| String d s' => Ascii.eqb d c || has_char c s'
end.

(** [s.count(c)] for a character [c]. *)
Fixpoint count (c : ascii) (s : string) : nat :=
  match s with
  | EmptyString => 0
  | String d s' => (if Ascii.eqb d c then 1 else 0) + count c s'
  end.

End Py.

(** ** Exceptions *)

(** The exception classes that occur.  [KeyboardInterrupt] and
    [SystemExit] derive from [BaseException] only, so [except Exception]
    lets them through; all the others derive from [Exception]. *)
Inductive exn_class :=
  | KeyboardInterrupt
  | SystemExit
  | Exception
  | IndexError
  | AssertionError
  | TimeoutError
  | PlaywrightError
  | OSError
  | FileExistsError
  | FileNotFoundError
  | NotADirectoryError.

Record exn := Exn { exn_type : exn_class; exn_msg : string }.

Global Instance exn_class_eq_dec : EqDecision exn_class.
Proof. solve_decision. Defined.

Global Instance exn_eq_dec : EqDecision exn.
Proof. solve_decision. Defined.

(** [isinstance(e, Exception)] *)
Definition isinstance_Exception (e : exn) : bool :=
  match exn_type e with
  | KeyboardInterrupt | SystemExit => false
  | _ => true
  end.

(** [isinstance(e, OSError)] *)
Definition isinstance_OSError (e : exn) : bool :=
  match exn_type e with
  | OSError | FileExistsError | FileNotFoundError | NotADirectoryError => true
  | _ => false
  end.

Inductive result (A : Type) :=
  | Ok (a : A)
  | Raise (e : exn).
Global Arguments Ok {A} a.
Global Arguments Raise {A} e.

(** ** Statements: state and exceptions

    A statement runs on a state and leaves a state behind, also when it
    raises: what was done before the exception stays done. *)

Definition M (S A : Type) : Type := S → S * result A.

Definition ret {S A} (a : A) : M S A := fun s => (s, Ok a).

Definition raise {S A} (e : exn) : M S A := fun s => (s, Raise e).

Definition bind {S A B} (m : M S A) (k : A → M S B) : M S B :=
  fun s =>
    match m s with
    | (s', Ok a) => k a s'
    | (s', Raise e) => (s', Raise e)
    end.

(** [try: body  except <class> as e: handler e], the class given by its
    [isinstance] test; an exception outside the class goes on. *)
Definition try_except {S A} (body : M S A) (catches : exn → bool)
    (handler : exn → M S A) : M S A :=
  fun s =>
    match body s with
    | (s', Ok a) => (s', Ok a)
    | (s', Raise e) => if catches e then handler e s' else (s', Raise e)
    end.

(** Reading the state. *)
Definition gets {S A} (f : S → A) : M S A := fun s => (s, Ok (f s)).

(** [l[n]] on a list: [IndexError] out of range (for [n >= 0]). *)
Definition getitem {S A} (l : list A) (n : nat) : M S A :=
  match l !! n with
  | Some x => ret x
  | None => raise (Exn IndexError "list index out of range")
  end.

Declare Scope stmt_scope.
Delimit Scope stmt_scope with stmt.
Notation "x <- m ;; k" := (bind m (fun x => k))
  (at level 100, m at next level, k at level 200, right associativity)
  : stmt_scope.
Notation "m ;; k" := (bind m (fun _ => k))
  (at level 100, k at level 200, right associativity) : stmt_scope.

(** ** Directories: [os.mkdir] and [os.makedirs]

    The script creates its output directory with
    [os.makedirs(..., exist_ok=True)].  The state is the set of directories
    that exist below the working directory; the regular files there are
    read, never changed.  A path is relative to the working directory and
    is the list of the names on it ([jules-scratch/verification] is
    [["jules-scratch"; "verification"]]); the empty list is the empty
    path.  A file is kept under its path written with ["/"], as the
    script gives it to [page.screenshot].  Paths have no [.] and no [..]
    on them, as the script's have none. *)

Module Os.

Abbreviation dirs := (gset (list string)).

(** The names on a path: what is between the separators, an empty name
    (a doubled or trailing separator, the empty path) not counting. *)
Definition components (path : string) : list string :=
List.filter Py.truthy_str (Py.split "/" path).

Section files.
Variable files : gmap string (list Byte.byte).

(** [os.path.isfile(p)] *)
Definition path_isfile (p : list string) : bool :=
bool_decide (is_Some (files !! String.concat "/" p)).

(** [os.path.isdir(p)] *)
Definition path_isdir (p : list string) (d : dirs) : bool :=
bool_decide (p ∈ d).

(** [os.path.exists(p)] *)
Definition path_exists (p : list string) (d : dirs) : bool :=
path_isdir p d || path_isfile p.

(** Walking down to a directory, name by name from [prefix]: a regular
    file on the way is [ENOTDIR], a missing name is [ENOENT]. *)
Fixpoint resolve_dir (prefix rest : list string) (d : dirs) : option exn :=
match rest with
| [] => None
| c :: rest' =>
    let q := prefix ++ [c] in
    if path_isfile q then Some (Exn NotADirectoryError "Not a directory")
    else if path_isdir q d then resolve_dir q rest' d
    else Some (Exn FileNotFoundError "No such file or directory")
end.

(** [os.mkdir(name)]: the parent must be there and be a directory (the
    working directory always is), and nothing may have the name yet. *)
Definition mkdir (name : list string) : M dirs unit :=
fun d =>
  if bool_decide (name = []) then
    (d, Raise (Exn FileNotFoundError "No such file or directory"))
  else
    match resolve_dir [] (removelast name) d with
    | Some e => (d, Raise e)
    | None =>
        if path_exists name d then
          (d, Raise (Exn FileExistsError "File exists"))
        else ({[name]} ∪ d, Ok tt)
    end.

(** [os.makedirs(name, exist_ok)], by recursion on the path read from its
  last name upwards: [rname] is [tail :: rev head] for
  [head, tail = os.path.split(name)]. *)
Fixpoint makedirs_rev (rname : list string) (exist_ok : bool) : M dirs unit :=
let name := rev rname in
let create : M dirs unit :=
  try_except (mkdir name) isinstance_OSError
    (fun e =>
       isdir <- gets (path_isdir name) ;;
       if negb exist_ok || negb isdir then raise e else ret tt)%stmt in
match rname with
| [] => create
| tail :: rhead =>
    let head := rev rhead in
    (head_exists <- gets (path_exists head) ;;
     (if bool_decide (head ≠ []) && Py.truthy_str tail && negb head_exists
      then try_except (makedirs_rev rhead exist_ok)
             (fun e => bool_decide (exn_type e = FileExistsError))
             (fun _ => ret tt)
      else ret tt) ;;
     create)%stmt
end.

Definition makedirs (name : list string) (exist_ok : bool) : M dirs unit :=
makedirs_rev (rev name) exist_ok.

End files.

End Os.

(** ** The browser, as the script sees it *)

(** An open page: its URL and what [page.title()] does on it. *)
Record page := Page { page_url : string; page_title : result string }.

(** A service worker: its URL. *)
Record worker := Worker { worker_url : string }.

Inductive locator :=
  | GetByText (text : string)
  | GetByRole (role name : string).

(** The calls the script makes, with their arguments. *)
Inductive op :=
  | SyncPlaywright
  | LaunchPersistentContext (user_data_dir : string) (headless : bool)
      (args : list string)
  | Sleep (seconds : Z)
  | ContextPages
  | PageTitle (index : nat)
  | ContextServiceWorkers
  | Print (line : string)
  | NewPage
  | Goto (url : string)
  | ExpectToBeVisible (target : locator) (timeout : Z)
  | Makedirs (name : string) (exist_ok : bool)
  | Screenshot (path : string)
  | Click (target : locator)
  | ContextClose.

Global Instance locator_eq_dec : EqDecision locator.
Proof. solve_decision. Defined.

Global Instance op_eq_dec : EqDecision op.
Proof. solve_decision. Defined.

(** What the script cannot decide: the working directory behind
    [os.path.abspath], the pages and service workers that are open when
    the script looks, when a text becomes visible (milliseconds after the
    wait starts, [None] for never) and the error Playwright's [expect]
    raises when the bound elapses, the image a screenshot captures, and
    which other calls fail and how. *)
Record env := Env {
  e_abspath : string → string;
  e_pages : list page;
  e_service_workers : list worker;
  e_visible_after : locator → option Z;
  e_timeout_error : exn;
  e_capture : string → list Byte.byte;
  e_raises : op → option exn;
}.

(** What a run leaves behind: the calls made, each with the exception it
    raised if it raised one (oldest first), and, below the working
    directory, the directories and the regular files (each under its
    path).  The profile directory of the browser, which the launch makes
    or reuses at the absolute path it is given, and what the browser
    keeps in it, are no part of this. *)
Record world := World {
  w_log : list (op * option exn);
  w_dirs : gset (list string);
  w_files : gmap string (list Byte.byte);
}.

Definition log (o : op) (r : option exn) (w : world) : world :=
  World (w_log w ++ [(o, r)]) (w_dirs w) (w_files w).

Definition visible_within (E : env) (target : locator) (timeout : Z) : bool :=
  match e_visible_after E target with
  | Some t => t <=? timeout
  | None => false
  end.

(** The effect of a call that the environment lets through. *)
Definition perform (E : env) (o : op) : M world unit :=
  fun w =>
    match o with
    | ExpectToBeVisible target timeout =>
        if visible_within E target timeout then (w, Ok tt)
        else (w, Raise (e_timeout_error E))
    | Makedirs name exist_ok =>
        let '(d, r) :=
          Os.makedirs (w_files w) (Os.components name) exist_ok (w_dirs w) in
        (World (w_log w) d (w_files w), r)
    | Screenshot path =>
        (World (w_log w) (w_dirs w) (<[path := e_capture E path]> (w_files w)),
         Ok tt)
    | _ => (w, Ok tt)
    end.

(** A call: it raises what the environment says it raises, and has its
    effect otherwise; either way it is logged with its outcome. *)
Definition call (E : env) (o : op) : M world unit :=
  fun w =>
    match e_raises E o with
    | Some e => (log o (Some e) w, Raise e)
    | None =>
        match perform E o w with
        | (w', Ok _) => (log o None w', Ok tt)
        | (w', Raise e) => (log o (Some e) w', Raise e)
        end
    end.

(** [page.title()] on the page at position [i] of [context.pages]. *)
Definition title (i : nat) (pg : page) : M world string :=
  fun w =>
    match page_title pg with
    | Ok t => (log (PageTitle i) None w, Ok t)
    | Raise e => (log (PageTitle i) (Some e) w, Raise e)
    end.

(** ** The script *)

(** How an f-string prints a variable that holds [None] or a [str]. *)
Definition format (v : option string) : string :=
  match v with
  | None => "None"
  | Some s => s
  end.

Definition options_page_url (extension_id : option string) : string :=
  "chrome-extension://" +:+ format extension_id +:+ "/options.html".

Section script.
Variable E : env.

Local Open Scope stmt_scope.

(** Lines 23-30: the loop over [context.pages], from the page at
    position [i] on.  The result is the value of [extension_id] when the
    loop is left. *)
Fixpoint scan_pages (i : nat) (pages : list page)
    (extension_id : option string) : M world (option string) :=
  match pages with
  | [] => ret extension_id
  | page :: rest =>
      if Py.startswith (page_url page) "chrome-extension://" then
        found <- try_except
                   (t <- title i page ;;
                    if String.eqb t "Password Memo" then
                      id <- getitem (Py.split "/" (page_url page)) 2 ;;
                      ret (Some id)
                    else ret None)
                   isinstance_Exception
                   (fun _ => ret None) ;;
        match found with
        | Some id => ret (Some id)
        | None => scan_pages (S i) rest extension_id
        end
      else scan_pages (S i) rest extension_id
  end.

(** Lines 33-36: the loop over [context.service_workers]. *)
Fixpoint scan_service_workers (targets : list worker)
    (extension_id : option string) : M world (option string) :=
  match targets with
  | [] => ret extension_id
  | target :: rest =>
      if Py.contains "background" (worker_url target) then
        id <- getitem (Py.split "/" (worker_url target)) 2 ;;
        ret (Some id)
      else scan_service_workers rest extension_id
  end.

(** Lines 6-19: start Playwright, launch the browser with the extension
    loaded, wait two seconds.  (Leaving the [with] block stops Playwright
    and lets an exception through; that exit is not a step here.) *)
Definition launch : M world unit :=
  call E SyncPlaywright ;;
  let extension_path := e_abspath E "password-memo-browser/dist" in
  let user_data_dir := "/tmp/test-user-data-dir" in
  call E (LaunchPersistentContext user_data_dir true
            ["--disable-extensions-except=" +:+ extension_path;
             "--load-extension=" +:+ extension_path]) ;;
  call E (Sleep 2).

(** Lines 21-39: the extension identifier, or the exception. *)
Definition find_extension_id : M world (option string) :=
  let extension_id := None in
  call E ContextPages ;;
  extension_id <- scan_pages 0 (e_pages E) extension_id ;;
  extension_id <-
    (if negb (Py.truthy extension_id) then
       call E ContextServiceWorkers ;;
       scan_service_workers (e_service_workers E) extension_id
     else ret extension_id) ;;
  if negb (Py.truthy extension_id) then
    raise (Exn Exception "Could not find extension ID")
  else ret extension_id.

(** Lines 41-66: the options page, the wait, the directory, and the
    three screenshots around the two clicks. *)
Definition verify_themes (extension_id : option string) : M world unit :=
  call E (Print ("Extension ID: " +:+ format extension_id)) ;;
  let options_page_url := options_page_url extension_id in
  call E (Print ("Navigating to: " +:+ options_page_url)) ;;
  call E NewPage ;;
  call E (Goto options_page_url) ;;
  call E (ExpectToBeVisible (GetByText "Theme") 10000) ;;
  call E (Makedirs "jules-scratch/verification" true) ;;
  call E (Screenshot "jules-scratch/verification/01_default_theme.png") ;;
  call E (Click (GetByRole "button" "Light")) ;;
  call E (Screenshot "jules-scratch/verification/02_light_theme.png") ;;
  call E (Click (GetByRole "button" "Dark")) ;;
  call E (Screenshot "jules-scratch/verification/03_dark_theme.png") ;;
  call E ContextClose.

Definition test_theme_switching : M world unit :=
  launch ;;
  extension_id <- find_extension_id ;;
  verify_themes extension_id.

End script.

(** The world before a run: nothing logged yet. *)
Definition initial (d : gset (list string))
    (f : gmap string (list Byte.byte)) : world :=
  World [] d f.

(** The calls of a log, without their outcomes. *)
Definition calls (w : world) : list op := (w_log w).*1.

Module Demo.

(** A browser in which no call fails and every text is visible 120 ms
    into the wait, with the given pages and service workers open. *)
Definition quiet (pages : list page) (workers : list worker) : env :=
  Env (fun p => "/repo/" +:+ p) pages workers (fun _ => Some 120)
    (Exn AssertionError "Locator expected to be visible")
    (fun _ => []) (fun _ => None).

Definition tab : page :=
  Page "chrome-extension://abcdefgh/popup.html" (Ok "Password Memo").

Definition background : worker :=
  Worker "chrome-extension://abcdefgh/background.js".

End Demo.

(** ** Vocabulary of the statements *)

(** A world with more calls logged. *)
Definition extend (w : world) (l : list (op * option exn)) : world :=
  World (w_log w ++ l) (w_dirs w) (w_files w).

(** The page scan takes this page: an extension URL and the title of the
    product. *)
Definition is_match (pg : page) : bool :=
  Py.startswith (page_url pg) "chrome-extension://" &&
  match page_title pg with
  | Ok t => String.eqb t "Password Memo"
  | Raise _ => false
  end.

(** [page.title()] is asked on this page and raises outside [Exception]. *)
Definition interrupts (pg : page) : bool :=
  Py.startswith (page_url pg) "chrome-extension://" &&
  match page_title pg with
  | Ok _ => false
  | Raise e => negb (isinstance_Exception e)
  end.

(** The page scan goes past this page. *)
Definition passed_over (pg : page) : bool :=
  negb (is_match pg) && negb (interrupts pg).

(** The service-worker scan takes this worker. *)
Definition is_background (t : worker) : bool :=
  Py.contains "background" (worker_url t).

(** What the scan logs on a page it asks the title of. *)
Definition title_entry (i : nat) (pg : page) : list (op * option exn) :=
  if Py.startswith (page_url pg) "chrome-extension://" then
    [(PageTitle i,
      match page_title pg with Ok _ => None | Raise e => Some e end)]
  else [].

Fixpoint titles_log (i : nat) (pages : list page) : list (op * option exn) :=
  match pages with
  | [] => []
  | pg :: rest => title_entry i pg ++ titles_log (S i) rest
  end.

(** What the page scan comes to on a list of pages, in the words of the
    specification: the identifier of the first matching page in list
    order, or [None] when the scan goes past every page. *)
Inductive scan_yields (pages : list page) : option string → Prop :=
  | scan_no_match :
      Forall (fun pg => passed_over pg = true) pages →
      scan_yields pages None
  | scan_first_match pre pg post id :
      pages = pre ++ pg :: post →
      Forall (fun pg => passed_over pg = true) pre →
      is_match pg = true →
      Py.split "/" (page_url pg) !! 2%nat = Some id →
      scan_yields pages (Some id).

(** The steps that come after the discovery of the identifier. *)
Definition later_step (o : op) : bool :=
  match o with
  | Print _ | NewPage | Goto _ | ExpectToBeVisible _ _ | Makedirs _ _
  | Screenshot _ | Click _ | ContextClose => true
  | _ => false
  end.

(** A call that has no effect of its own in the model. *)
Definition effectless (o : op) : bool :=
  match o with
  | ExpectToBeVisible _ _ | Makedirs _ _ | Screenshot _ => false
  | _ => true
  end.

(** Calls made one after the other, as the straight-line parts of the
    script make them. *)
Fixpoint run_calls (E : env) (ops : list op) : M world unit :=
  match ops with
  | [] => ret tt
  | [o] => call E o
  | o :: rest => (call E o ;; run_calls E rest)%stmt
  end.

(** The calls of lines 6-19 and of lines 41-66, in order. *)
Definition launch_calls (E : env) : list op :=
  let extension_path := e_abspath E "password-memo-browser/dist" in
  [SyncPlaywright;
   LaunchPersistentContext "/tmp/test-user-data-dir" true
     ["--disable-extensions-except=" +:+ extension_path;
      "--load-extension=" +:+ extension_path];
   Sleep 2].

Definition verify_themes_calls (extension_id : option string) : list op :=
  [Print ("Extension ID: " +:+ format extension_id);
   Print ("Navigating to: " +:+ options_page_url extension_id);
   NewPage;
   Goto (options_page_url extension_id);
   ExpectToBeVisible (GetByText "Theme") 10000;
   Makedirs "jules-scratch/verification" true;
   Screenshot "jules-scratch/verification/01_default_theme.png";
   Click (GetByRole "button" "Light");
   Screenshot "jules-scratch/verification/02_light_theme.png";
   Click (GetByRole "button" "Dark");
   Screenshot "jules-scratch/verification/03_dark_theme.png";
   ContextClose].

(** Log entries of calls that returned. *)
Definition returned (ops : list op) : list (op * option exn) :=
  (fun o => (o, None)) <$> ops.

(** A logged call whose exception, if any, the script swallows: only
    [page.title()] raising inside [Exception]. *)
Definition benign (x : op * option exn) : Prop :=
  match x.2 with
  | None => True
  | Some e =>
      match x.1 with
      | PageTitle _ => isinstance_Exception e = true
      | _ => False
      end
  end.

(** A log and a result in which no exception was lost: the calls are
    benign, except that the last one may have raised the exception the
    run ends with. *)
Definition propagating {A} (l : list (op * option exn)) (r : result A)
    : Prop :=
  Forall benign l ∨
  ∃ l0 o e, l = l0 ++ [(o, Some e)] ∧ Forall benign l0 ∧ r = Raise e.

(** A statement that only adds to the log, adds only calls among
    [allowed], and loses no exception. *)
Definition tracks {A} (allowed : op → Prop) (m : M world A) : Prop :=
  ∀ w, ∃ l,
    w_log (m w).1 = w_log w ++ l ∧
    Forall (fun x => allowed x.1) l ∧
    propagating l (m w).2.

(** The files after the screenshots among [ops] are taken: each capture
    is written at its path, over what was there. *)
Definition written (E : env) (ops : list op)
    (files : gmap string (list Byte.byte)) : gmap string (list Byte.byte) :=
  foldl (fun files o =>
           match o with
           | Screenshot path => <[path := e_capture E path]> files
           | _ => files
           end) files ops.

(** A statement that touches nothing but the log. *)
Definition only_logs {A} (m : M world A) : Prop :=
  ∀ w, ∃ l, (m w).1 = extend w l.

(** The steps that the screenshots and the clicks make up. *)
Definition shot_or_click (o : op) : bool :=
  match o with
  | Screenshot _ | Click _ => true
  | _ => false
  end.

(** The ways discovery comes to the identifier [id]: the first matching
    page has it, or the pages give nothing truthy and the first worker
    with ["background"] in its URL has it. *)
Definition discovers (E : env) (id : string) : Prop :=
  scan_yields (e_pages E) (Some id) ∨
  ∃ v pre t post,
    scan_yields (e_pages E) v ∧ Py.truthy v = false ∧
    e_service_workers E = pre ++ t :: post ∧
    Forall (fun t => is_background t = false) pre ∧
    is_background t = true ∧
    Py.split "/" (worker_url t) !! 2%nat = Some id.

(** A value of [extension_id] with no ["/"] in it. *)
Definition segment (v : option string) : Prop :=
  ∀ id, v = Some id → Py.has_char "/" id = false.

(** The part of the script a call belongs to: the launch (0), the
    discovery (1), the steps after it (2). *)
Definition phase (o : op) : nat :=
  match o with
  | SyncPlaywright | LaunchPersistentContext _ _ _ | Sleep _ => 0
  | ContextPages | PageTitle _ | ContextServiceWorkers => 1
  | _ => 2
  end.

(** The calls that change the directories or the files. *)
Definition touches_disk (o : op) : bool :=
  match o with
  | Makedirs _ _ | Screenshot _ => true
  | _ => false
  end.

(** * Properties *)

(** ** The model at work *)

Example split_extension_url :
  Py.split "/" "chrome-extension://abcdef/options.html"
  = ["chrome-extension:"; ""; "abcdef"; "options.html"].
Proof. reflexivity. Qed.

Example split_no_separator : Py.split "/" "background" = ["background"].
Proof. reflexivity. Qed.

Example split_bare_scheme :
  Py.split "/" "chrome-extension://" = ["chrome-extension:"; ""; ""].
Proof. reflexivity. Qed.

Example contains_background :
  Py.contains "background" "chrome-extension://abc/background.js" = true.
Proof. reflexivity. Qed.

Example makedirs_fresh :
  Os.makedirs ∅ ["jules-scratch"; "verification"] true ∅
  = ({[ ["jules-scratch"; "verification"] ]} ∪ ({[ ["jules-scratch"] ]} ∪ ∅),
     Ok tt).
Proof. reflexivity. Qed.

Example makedirs_not_exist_ok :
  snd (Os.makedirs ∅ ["jules-scratch"; "verification"] false
         {[ ["jules-scratch"; "verification"] ]})
  = Raise (Exn FileExistsError "File exists").
Proof. vm_compute. reflexivity. Qed.

Example run_with_tab :
  calls (test_theme_switching (Demo.quiet [Demo.tab] []) (initial ∅ ∅)).1
  = [SyncPlaywright;
     LaunchPersistentContext "/tmp/test-user-data-dir" true
       ["--disable-extensions-except=/repo/password-memo-browser/dist";
        "--load-extension=/repo/password-memo-browser/dist"];
     Sleep 2; ContextPages; PageTitle 0;
     Print "Extension ID: abcdefgh";
     Print "Navigating to: chrome-extension://abcdefgh/options.html";
     NewPage; Goto "chrome-extension://abcdefgh/options.html";
     ExpectToBeVisible (GetByText "Theme") 10000;
     Makedirs "jules-scratch/verification" true;
     Screenshot "jules-scratch/verification/01_default_theme.png";
     Click (GetByRole "button" "Light");
     Screenshot "jules-scratch/verification/02_light_theme.png";
     Click (GetByRole "button" "Dark");
     Screenshot "jules-scratch/verification/03_dark_theme.png";
     ContextClose].
Proof. vm_compute. reflexivity. Qed.

Example run_with_nothing_open :
  (test_theme_switching (Demo.quiet [] []) (initial ∅ ∅)).2
  = Raise (Exn Exception "Could not find extension ID").
Proof. vm_compute. reflexivity. Qed.

(** ** Statements *)

Section monad_laws.
Context {S A B : Type}.

Lemma bind_ret_l (a : A) (k : A → M S B) s : bind (ret a) k s = k a s.
Proof. reflexivity. Qed.

Lemma bind_raise_l (e : exn) (k : A → M S B) s :
  bind (raise e) k s = (s, Raise e).
Proof. reflexivity. Qed.

Lemma bind_ok (m : M S A) (k : A → M S B) s s' a :
  m s = (s', Ok a) → bind m k s = k a s'.
Proof. unfold bind. by intros ->. Qed.

Lemma bind_raises (m : M S A) (k : A → M S B) s s' e :
  m s = (s', Raise e) → bind m k s = (s', Raise e).
Proof. unfold bind. by intros ->. Qed.
End monad_laws.

(** ** Strings *)

Section strings.
Implicit Types (s t p : string) (c sep : ascii).

Lemma app_String c s t : String c s +:+ t = String c (s +:+ t).
Proof. reflexivity. Qed.

Lemma app_empty_l s : "" +:+ s = s.
Proof. reflexivity. Qed.

Lemma app_assoc_str s t p : (s +:+ t) +:+ p = s +:+ t +:+ p.
Proof. induction s as [|c s IH]; [done|]. by rewrite !app_String, IH. Qed.

(** A string that starts with [p] is [p] followed by something. *)
Lemma startswith_app s p :
  Py.startswith s p = true ↔ ∃ t, s = p +:+ t.
Proof.
  unfold Py.startswith. revert s.
  induction p as [|c p IH]; intros s.
  - split; [intros _; by exists s | by destruct s].
  - destruct s as [|d s]; simpl.
    + split; [done | by intros [t Ht]].
    + destruct (ascii_dec c d) as [->|Hcd].
      * rewrite IH. split; intros [t Ht]; exists t.
        -- by rewrite app_String, Ht.
        -- rewrite app_String in Ht. congruence.
      * split; [done|]. intros [t Ht]. rewrite app_String in Ht. congruence.
Qed.

Lemma split_not_nil sep s : Py.split sep s ≠ [].
Proof.
  destruct s as [|c s]; simpl; [done|].
  destruct (Ascii.eqb c sep); [done|]. by destruct (Py.split sep s).
Qed.

Lemma split_sep sep s : Py.split sep (String sep s) = "" :: Py.split sep s.
Proof. simpl. by rewrite Ascii.eqb_refl. Qed.

Lemma split_other sep c s :
  c ≠ sep →
  ∃ field fields,
    Py.split sep s = field :: fields ∧
    Py.split sep (String c s) = String c field :: fields.
Proof.
  intros Hc. simpl. apply Ascii.eqb_neq in Hc as ->.
  destruct (Py.split sep s) as [|field fields] eqn:Hs.
  - by apply split_not_nil in Hs.
  - by exists field, fields.
Qed.

(** A field without separator, followed by a separator, is the first
    field of the split. *)
Lemma split_field sep s t :
  Py.has_char sep s = false →
  Py.split sep (s +:+ String sep t) = s :: Py.split sep t.
Proof.
  induction s as [|c s IH]; intros Hs.
  - by rewrite app_empty_l, split_sep.
  - simpl in Hs. apply orb_false_elim in Hs as [Hc Hs].
    rewrite app_String. cbn [Py.split]. by rewrite Hc, (IH Hs).
Qed.

(** A string without separator is its only field. *)
Lemma split_last_field sep s :
  Py.has_char sep s = false → Py.split sep s = [s].
Proof.
  induction s as [|c s IH]; simpl; intros Hs; [done|].
  apply orb_false_elim in Hs as [Hc Hs]. by rewrite Hc, (IH Hs).
Qed.

(** No field of a split has the separator in it. *)
Lemma split_fields_no_sep sep s :
  Forall (fun field => Py.has_char sep field = false) (Py.split sep s).
Proof.
  induction s as [|c s IH]; simpl.
  - by repeat constructor.
  - destruct (Ascii.eqb c sep) eqn:Hc.
    + by constructor.
    + destruct (Py.split sep s) as [|field fields]; simpl.
      * repeat constructor. simpl. by rewrite Hc.
      * inversion_clear IH. constructor; [|done]. simpl. by rewrite Hc.
Qed.

(** The split of an extension URL: the scheme, the empty field between
    the two slashes, then the fields of what follows. *)
Lemma split_extension_scheme t :
  Py.split "/" ("chrome-extension://" +:+ t)
  = "chrome-extension:" :: "" :: Py.split "/" t.
Proof.
  change ("chrome-extension://" +:+ t)
    with ("chrome-extension:" +:+ String "/" ("" +:+ String "/" t)).
  rewrite split_field by reflexivity. by rewrite split_field by reflexivity.
Qed.

(** So index 2 is always there on a URL that passed [startswith]. *)
Lemma split_startswith_index2 url :
  Py.startswith url "chrome-extension://" = true →
  is_Some (Py.split "/" url !! 2%nat).
Proof.
  intros [t ->]%startswith_app. rewrite split_extension_scheme.
  destruct (Py.split "/" t) as [|id rest] eqn:Ht.
  - by apply split_not_nil in Ht.
  - by exists id.
Qed.

Lemma truthy_str_spec s : Py.truthy_str s = true ↔ s ≠ "".
Proof. unfold Py.truthy_str. by destruct s. Qed.

Lemma truthy_spec (v : option string) :
  Py.truthy v = true ↔ ∃ s, v = Some s ∧ s ≠ "".
Proof.
  destruct v as [s|]; simpl.
  - rewrite truthy_str_spec. split; [by exists s|]. by intros (? & [= <-] & ?).
  - split; [done|]. by intros (? & ? & ?).
Qed.
End strings.

(** ** Worlds and calls *)

Section calls.
Variable E : env.
Implicit Types (w : world) (l : list (op * option exn)) (o : op).

Lemma extend_nil w : extend w [] = w.
Proof. destruct w. unfold extend. simpl. by rewrite app_nil_r. Qed.

Lemma extend_extend w l1 l2 : extend (extend w l1) l2 = extend w (l1 ++ l2).
Proof. unfold extend. simpl. by rewrite app_assoc. Qed.

Lemma log_extend o r w : log o r w = extend w [(o, r)].
Proof. reflexivity. Qed.

(** A call the environment fails. *)
Lemma call_raises o e w :
  e_raises E o = Some e → call E o w = (extend w [(o, Some e)], Raise e).
Proof. unfold call. by intros ->. Qed.

(** A call that goes through and has its effect. *)
Lemma call_performs o w w' :
  e_raises E o = None → perform E o w = (w', Ok tt) →
  call E o w = (extend w' [(o, None)], Ok tt).
Proof. unfold call. by intros -> ->. Qed.

Lemma perform_effectless o w :
  effectless o = true → perform E o w = (w, Ok tt).
Proof. by destruct o. Qed.

Lemma call_effectless o w :
  effectless o = true → e_raises E o = None →
  call E o w = (extend w [(o, None)], Ok tt).
Proof. intros Ho He. by apply call_performs, perform_effectless. Qed.

(** A call that returned was let through and had its effect. *)
Lemma call_inv_ok o w w' u :
  call E o w = (w', Ok u) →
  e_raises E o = None ∧
  ∃ w1, perform E o w = (w1, Ok tt) ∧ w' = extend w1 [(o, None)].
Proof.
  unfold call. destruct (e_raises E o); [done|].
  destruct (perform E o w) as [w1 [[]|e]]; [|done].
  intros [= <-]. eauto.
Qed.

(** Every call logs itself, once, with its outcome, and leaves the
    earlier log alone. *)
Lemma call_log o w :
  ∃ r, w_log (call E o w).1 = w_log w ++ [(o, r)] ∧
    match (call E o w).2 with
    | Ok _ => r = None
    | Raise e => r = Some e
    end.
Proof.
  unfold call. destruct (e_raises E o) as [e|]; [by exists (Some e)|].
  destruct (perform E o w) as [w1 [[]|e]] eqn:Hp.
  - exists None. split; [|done]. simpl. f_equal.
    destruct o; simpl in Hp; try by injection Hp as <-.
    + by destruct (visible_within E target timeout); injection Hp as <-.
    + destruct (Os.makedirs _ _ _ _). by injection Hp as <-.
  - exists (Some e). split; [|done]. simpl. f_equal.
    destruct o; simpl in Hp; try by injection Hp as <-.
    + by destruct (visible_within E target timeout); injection Hp as <-.
    + destruct (Os.makedirs _ _ _ _). by injection Hp as <-.
Qed.
End calls.

(** ** The two scans *)

Section scans.
Implicit Types (w : world) (pg : page) (t : worker) (v : option string).

(** One turn of the page loop, by the kind of page. *)
Lemma scan_pages_passed_over i pg rest v w :
  passed_over pg = true →
  scan_pages i (pg :: rest) v w
  = scan_pages (S i) rest v (extend w (title_entry i pg)).
Proof.
  unfold passed_over, is_match, interrupts, title_entry. simpl.
  destruct (Py.startswith _ _); simpl; [|by rewrite extend_nil].
  unfold bind at 1, try_except, bind at 1, title.
  destruct (page_title pg) as [t|e]; simpl.
  - rewrite andb_true_r. intros ->%negb_true_iff. done.
  - rewrite negb_involutive. intros ->. done.
Qed.

Lemma scan_pages_match i pg rest v w id :
  is_match pg = true →
  Py.split "/" (page_url pg) !! 2%nat = Some id →
  scan_pages i (pg :: rest) v w
  = (extend w [(PageTitle i, None)], Ok (Some id)).
Proof.
  unfold is_match. intros [Hurl Ht]%andb_true_iff Hid. simpl. rewrite Hurl.
  unfold bind at 1, try_except, bind at 1, title.
  destruct (page_title pg) as [t|e]; [|done]. rewrite Ht.
  unfold bind, getitem. by rewrite Hid.
Qed.

Lemma scan_pages_interrupts i pg rest v w :
  interrupts pg = true →
  ∃ e, page_title pg = Raise e ∧ isinstance_Exception e = false ∧
    scan_pages i (pg :: rest) v w
    = (extend w [(PageTitle i, Some e)], Raise e).
Proof.
  unfold interrupts. intros [Hurl Ht]%andb_true_iff.
  destruct (page_title pg) as [t|e] eqn:Hpg; [done|].
  apply negb_true_iff in Ht. exists e. repeat split; [done|].
  simpl. rewrite Hurl.
  unfold bind at 1, try_except, bind at 1, title. by rewrite Hpg, Ht.
Qed.

(** The loop over pages it goes past: only the titles are logged and
    the variable is as before. *)
Lemma scan_pages_all_passed_over i pages v w :
  Forall (fun pg => passed_over pg = true) pages →
  scan_pages i pages v w = (extend w (titles_log i pages), Ok v).
Proof.
  intros Hpages. revert i w.
  induction Hpages as [|pg rest Hpg _ IH]; intros i w.
  - simpl. by rewrite extend_nil.
  - rewrite scan_pages_passed_over by done.
    rewrite IH, extend_extend. done.
Qed.

(** The loop stops at the first match: what comes after it in the list
    plays no part. *)
Lemma scan_pages_first_match i pre pg post v w id :
  Forall (fun pg => passed_over pg = true) pre →
  is_match pg = true →
  Py.split "/" (page_url pg) !! 2%nat = Some id →
  scan_pages i (pre ++ pg :: post) v w
  = (extend w (titles_log i pre ++ [(PageTitle (i + length pre), None)]),
     Ok (Some id)).
Proof.
  intros Hpre Hpg Hid. revert i w.
  induction Hpre as [|pg' rest Hpg' _ IH]; intros i w.
  - simpl app. rewrite (scan_pages_match _ _ _ _ _ id) by done.
    simpl. by rewrite Nat.add_0_r.
  - rewrite <-app_comm_cons, scan_pages_passed_over by done.
    rewrite IH, extend_extend. simpl.
    by rewrite <-app_assoc, Nat.add_succ_r.
Qed.

(** A matching page always has an identifier to extract: the index
    cannot be out of range after [startswith]. *)
Lemma match_has_id pg :
  is_match pg = true → is_Some (Py.split "/" (page_url pg) !! 2%nat).
Proof.
  unfold is_match. intros [Hurl _]%andb_true_iff.
  by apply split_startswith_index2.
Qed.

(** The scan, started as the script starts it, does what [scan_yields]
    says, and logs nothing but the titles it asked. *)
Lemma scan_pages_yields pages v w :
  scan_yields pages v →
  ∃ l, scan_pages 0 pages None w = (extend w l, Ok v) ∧
       Forall (fun x => ∃ i, x.1 = PageTitle i) l.
Proof.
  assert (Htitles : ∀ i ps,
    Forall (fun x => ∃ j, x.1 = PageTitle j) (titles_log i ps)).
  { intros i ps. revert i. induction ps as [|pg ps IH]; intros i; simpl.
    - constructor.
    - apply Forall_app. split; [|apply IH]. unfold title_entry.
      destruct (Py.startswith _ _); repeat constructor. by eexists. }
  intros [Hall|pre pg post id -> Hpre Hpg Hid].
  - eexists. split; [by apply scan_pages_all_passed_over|]. apply Htitles.
  - eexists. split; [by apply scan_pages_first_match|].
    apply Forall_app. split; [apply Htitles|]. repeat constructor.
    by eexists.
Qed.

(** The loop over service workers. *)
Lemma scan_service_workers_none targets v w :
  Forall (fun t => is_background t = false) targets →
  scan_service_workers targets v w = (w, Ok v).
Proof.
  unfold is_background.
  induction 1 as [|t rest Ht _ IH]; simpl; [done|]. by rewrite Ht.
Qed.

Lemma scan_service_workers_first pre t post v w :
  Forall (fun t => is_background t = false) pre →
  is_background t = true →
  scan_service_workers (pre ++ t :: post) v w
  = (id <- getitem (Py.split "/" (worker_url t)) 2 ;; ret (Some id))%stmt w.
Proof.
  unfold is_background. intros Hpre Ht.
  induction Hpre as [|t' rest Ht' _ IH]; simpl.
  - by rewrite Ht.
  - by rewrite Ht'.
Qed.
End scans.

(** ** The extracted identifier *)

(** C3.  For every matching context, page or service worker, the
    extracted identifier is the element at index 2 of the context's URL
    split on ["/"]; for a URL [chrome-extension://<id>/...] that element
    is [<id>]. *)
Theorem extracted_id_is_index_2 :
  (∀ i pre pg post v w,
     Forall (fun pg => passed_over pg = true) pre →
     is_match pg = true →
     ∃ id, Py.split "/" (page_url pg) !! 2%nat = Some id ∧
           (scan_pages i (pre ++ pg :: post) v w).2 = Ok (Some id)) ∧
  (∀ pre t post v w id,
     Forall (fun t => is_background t = false) pre →
     is_background t = true →
     Py.split "/" (worker_url t) !! 2%nat = Some id →
     (scan_service_workers (pre ++ t :: post) v w).2 = Ok (Some id)) ∧
  (∀ id rest,
     Py.has_char "/" id = false →
     Py.split "/" ("chrome-extension://" +:+ id +:+ "/" +:+ rest) !! 2%nat
     = Some id).
Proof.
  split; [|split].
  - intros i pre pg post v w Hpre Hpg.
    destruct (match_has_id pg Hpg) as [id Hid]. exists id. split; [done|].
    by rewrite (scan_pages_first_match _ _ _ _ _ _ id).
  - intros pre t post v w id Hpre Ht Hid.
    rewrite scan_service_workers_first by done.
    unfold bind, getitem. by rewrite Hid.
  - intros id rest Hid.
    rewrite split_extension_scheme.
    change ("/" +:+ rest) with (String "/" rest).
    by rewrite split_field.
Qed.

Lemma extracted_id_is_index_2_witness :
  (scan_pages 0 ([] ++ Demo.tab :: []) None (initial ∅ ∅)).2
  = Ok (Some "abcdefgh") ∧
  (scan_service_workers ([] ++ Demo.background :: []) None (initial ∅ ∅)).2
  = Ok (Some "abcdefgh") ∧
  Py.split "/" ("chrome-extension://" +:+ "abcdefgh" +:+ "/" +:+ "popup.html")
    !! 2%nat = Some "abcdefgh".
Proof.
  destruct extracted_id_is_index_2 as (Hpage & Hworker & Hurl).
  split; [|split].
  - destruct (Hpage 0%nat [] Demo.tab [] None (initial ∅ ∅))
      as (id & Hid & Hscan); [constructor | reflexivity |].
    vm_compute in Hid. injection Hid as <-. exact Hscan.
  - apply Hworker; [constructor | reflexivity | reflexivity].
  - apply Hurl. reflexivity.
Defined.

(** ** Discovery *)

Section discovery.
Variable E : env.
Implicit Types (w : world) (v : option string).

(** What is left of [find_extension_id] once the page scan is over:
    the fallback when the scan gave nothing truthy, and the check. *)
Lemma find_extension_id_after_scan w w1 v :
  e_raises E ContextPages = None →
  scan_pages 0 (e_pages E) None (extend w [(ContextPages, None)])
  = (w1, Ok v) →
  find_extension_id E w
  = (extension_id <-
       (if negb (Py.truthy v) then
          call E ContextServiceWorkers ;;
          scan_service_workers (e_service_workers E) v
        else ret v) ;;
     if negb (Py.truthy extension_id) then
       raise (Exn Exception "Could not find extension ID")
     else ret extension_id)%stmt w1.
Proof.
  intros Hpages Hscan. unfold find_extension_id.
  rewrite (bind_ok _ _ _ _ _ (call_effectless E ContextPages w eq_refl Hpages)).
  by rewrite (bind_ok _ _ _ _ _ Hscan).
Qed.

(** A truthy identifier from the page scan is the answer; the service
    workers are not asked for. *)
Lemma find_extension_id_from_pages w w1 v :
  e_raises E ContextPages = None →
  scan_pages 0 (e_pages E) None (extend w [(ContextPages, None)])
  = (w1, Ok v) →
  Py.truthy v = true →
  find_extension_id E w = (w1, Ok v).
Proof.
  intros Hpages Hscan Hv.
  rewrite (find_extension_id_after_scan _ _ _ Hpages Hscan).
  rewrite Hv. simpl. rewrite bind_ret_l. by rewrite Hv.
Qed.

(** A falsy one sends the script to the service workers. *)
Lemma find_extension_id_fallback w w1 v :
  e_raises E ContextPages = None →
  e_raises E ContextServiceWorkers = None →
  scan_pages 0 (e_pages E) None (extend w [(ContextPages, None)])
  = (w1, Ok v) →
  Py.truthy v = false →
  find_extension_id E w
  = (extension_id <- scan_service_workers (e_service_workers E) v ;;
     if negb (Py.truthy extension_id) then
       raise (Exn Exception "Could not find extension ID")
     else ret extension_id)%stmt
      (extend w1 [(ContextServiceWorkers, None)]).
Proof.
  intros Hpages Hworkers Hscan Hv.
  rewrite (find_extension_id_after_scan _ _ _ Hpages Hscan).
  rewrite Hv. simpl. unfold bind at 1.
  by rewrite (bind_ok _ _ _ _ _ (call_effectless E ContextServiceWorkers w1 eq_refl Hworkers)).
Qed.

(** The check at line 38: [find_extension_id] returns nothing falsy. *)
Lemma find_extension_id_truthy w w1 v :
  find_extension_id E w = (w1, Ok v) → Py.truthy v = true.
Proof.
  unfold find_extension_id, bind.
  destruct (call E ContextPages w) as [w2 [[]|?]]; [|done].
  destruct (scan_pages _ _ _ _) as [w3 [v1|?]]; [|done].
  destruct (if negb (Py.truthy v1) then _ else _) as [w4 [v2|?]]; [|done].
  destruct (Py.truthy v2) eqn:Hv2; simpl; [|done].
  unfold ret. by intros [= _ <-].
Qed.
End discovery.

(** ** Straight-line parts *)

Section straight_line.
Variable E : env.
Implicit Types (w : world) (ops : list op).

Lemma launch_run_calls : launch E = run_calls E (launch_calls E).
Proof. reflexivity. Qed.

Lemma verify_themes_run_calls v :
  verify_themes E v = run_calls E (verify_themes_calls v).
Proof. reflexivity. Qed.

Lemma run_calls_cons o ops w :
  run_calls E (o :: ops) w = (call E o ;; run_calls E ops)%stmt w.
Proof.
  destruct ops; [|done]. simpl. unfold bind.
  by destruct (call E o w) as [w' [[]|e]].
Qed.

(** A run of calls either makes them all, or stops at the first that
    raises, with its exception. *)
Lemma run_calls_log ops w :
  match (run_calls E ops w).2 with
  | Ok _ => w_log (run_calls E ops w).1 = w_log w ++ returned ops
  | Raise e =>
      ∃ made o rest,
        ops = made ++ o :: rest ∧
        w_log (run_calls E ops w).1
        = w_log w ++ returned made ++ [(o, Some e)]
  end.
Proof.
  revert w. induction ops as [|o ops IH]; intros w.
  - simpl. by rewrite app_nil_r.
  - rewrite run_calls_cons. unfold bind.
    destruct (call_log E o w) as (r & Hlog & Hr).
    destruct (call E o w) as [w1 [[]|e]]; simpl in *; subst r.
    + specialize (IH w1).
      destruct (run_calls E ops w1) as [w2 [[]|e]]; simpl in *.
      * rewrite IH, Hlog, <-app_assoc. done.
      * destruct IH as (made & o' & rest & -> & IH).
        exists (o :: made), o', rest. split; [done|].
        rewrite IH, Hlog, <-app_assoc. done.
    + exists [], o, ops. by split.
Qed.
End straight_line.

(** ** No exception is lost, but for the titles *)

Section tracking.
Variable E : env.
Implicit Types (w : world) (l : list (op * option exn)).

Lemma propagating_app {A B} l1 l2 (a : A) (r : result B) :
  propagating l1 (Ok a) → propagating l2 r → propagating (l1 ++ l2) r.
Proof.
  intros [H1|(? & ? & ? & _ & _ & [=])] [H2|(l0 & o & e & -> & H2 & ->)].
  - left. by apply Forall_app.
  - right. exists (l1 ++ l0), o, e. rewrite app_assoc.
    split_and!; [done| |done]. by apply Forall_app.
Qed.

Lemma propagating_raise {A B} l e :
  propagating l (Raise e : result A) → propagating l (Raise e : result B).
Proof.
  intros [H|(l0 & o & e' & -> & H & [= ->])]; [by left|].
  right. by exists l0, o, e'.
Qed.

Lemma tracks_weaken {A} (P Q : op → Prop) (m : M world A) :
  (∀ o, P o → Q o) → tracks P m → tracks Q m.
Proof.
  intros HPQ Hm w. destruct (Hm w) as (l & Hl & HP & Hr).
  exists l. split_and!; [done| |done].
  eapply Forall_impl; [done|]. intros x. apply HPQ.
Qed.

Lemma tracks_quiet {A} (P : op → Prop) (m : M world A) :
  (∀ w, (m w).1 = w) → tracks P m.
Proof.
  intros Hm w. exists []. rewrite Hm, app_nil_r.
  split_and!; [done|constructor|]. left. constructor.
Qed.

Lemma tracks_ret {A} P (a : A) : tracks P (ret a).
Proof. by apply tracks_quiet. Qed.

Lemma tracks_raise {A} P e : tracks P (raise e : M world A).
Proof. by apply tracks_quiet. Qed.

Lemma tracks_getitem {A} P (xs : list A) n : tracks P (getitem xs n).
Proof. apply tracks_quiet. intros w. unfold getitem. by destruct (xs !! n). Qed.

Lemma tracks_bind {A B} P (m : M world A) (k : A → M world B) :
  tracks P m → (∀ a, tracks P (k a)) → tracks P (bind m k).
Proof.
  intros Hm Hk w. destruct (Hm w) as (l1 & Hl1 & HP1 & Hr1). unfold bind.
  destruct (m w) as [w1 [a|e]]; simpl in *.
  - destruct (Hk a w1) as (l2 & Hl2 & HP2 & Hr2).
    exists (l1 ++ l2). rewrite Hl2, Hl1, <-app_assoc.
    split_and!; [done|by apply Forall_app|]. by eapply propagating_app.
  - exists l1. split_and!; [done..|]. by eapply propagating_raise.
Qed.

Lemma tracks_call (P : op → Prop) o : P o → tracks P (call E o).
Proof.
  intros Ho w. destruct (call_log E o w) as (r & Hlog & Hr).
  exists [(o, r)]. split_and!; [done|by repeat constructor|].
  destruct (call E o w).2 as [[]|e]; subst r.
  - left. by repeat constructor.
  - right. by exists [], o, e.
Qed.

Lemma tracks_run_calls (P : op → Prop) ops :
  Forall P ops → tracks P (run_calls E ops).
Proof.
  induction 1 as [|o ops Ho _ IH].
  - apply tracks_ret.
  - intros w. rewrite run_calls_cons. revert w.
    apply tracks_bind; [by apply tracks_call | done].
Qed.

(** [page.title()]: the one call whose exception may be swallowed. *)
Lemma tracks_title i pg : tracks (fun o => ∃ j, o = PageTitle j) (title i pg).
Proof.
  intros w. unfold title. destruct (page_title pg) as [t|e]; simpl.
  - exists [(PageTitle i, None)].
    split_and!; [done|repeat constructor; by eexists|].
    left. by repeat constructor.
  - exists [(PageTitle i, Some e)].
    split_and!; [done|repeat constructor; by eexists|].
    right. by exists [], (PageTitle i), e.
Qed.

Lemma tracks_scan_pages i pages v :
  tracks (fun o => ∃ j, o = PageTitle j) (scan_pages i pages v).
Proof.
  revert i. induction pages as [|pg rest IH]; intros i; simpl.
  - apply tracks_ret.
  - destruct (Py.startswith _ _); [|apply IH].
    apply tracks_bind; [|intros [id|]; [apply tracks_ret | apply IH]].
    intros w. unfold try_except, bind at 1, title.
    destruct (page_title pg) as [t|e]; simpl.
    + set (w1 := log (PageTitle i) None w).
      assert (Hw1 : ∀ (r : result (option string)),
        ∃ l, w_log (w1, r).1 = w_log w ++ l ∧
             Forall (fun x => ∃ j, x.1 = PageTitle j) l ∧
             propagating l (Ok tt)).
      { intros r. exists [(PageTitle i, None)].
        split_and!; [done|repeat constructor; by eexists|].
        left. by repeat constructor. }
      destruct (String.eqb t "Password Memo").
      * unfold bind, getitem.
        destruct (Py.split "/" (page_url pg) !! 2%nat) as [id|]; simpl;
          destruct (Hw1 (Ok None)) as (l & Hl & HP & [Hb|(?&?&?&_&_&[=])]);
          exists l; split_and!; try done; by left.
      * destruct (Hw1 (Ok None)) as (l & Hl & HP & [Hb|(?&?&?&_&_&[=])]).
        exists l. split_and!; try done. by left.
    + destruct (isinstance_Exception e) eqn:He; simpl.
      * exists [(PageTitle i, Some e)].
        split_and!; [done|repeat constructor; by eexists|].
        left. by repeat constructor.
      * exists [(PageTitle i, Some e)].
        split_and!; [done|repeat constructor; by eexists|].
        right. by exists [], (PageTitle i), e.
Qed.

Lemma scan_service_workers_world targets v w :
  (scan_service_workers targets v w).1 = w.
Proof.
  induction targets as [|t rest IH]; simpl; [done|].
  destruct (Py.contains _ _); [|done].
  unfold bind, getitem. by destruct (_ !! _).
Qed.

Lemma tracks_find_extension_id :
  tracks (fun o => later_step o = false) (find_extension_id E).
Proof.
  unfold find_extension_id.
  apply tracks_bind; [by apply tracks_call|]. intros _.
  apply tracks_bind.
  { eapply tracks_weaken; [|apply tracks_scan_pages]. by intros o [j ->]. }
  intros v. apply tracks_bind.
  - destruct (negb (Py.truthy v)); [|apply tracks_ret].
    apply tracks_bind; [by apply tracks_call|]. intros _.
    apply tracks_quiet, scan_service_workers_world.
  - intros v'. destruct (negb (Py.truthy v'));
      [apply tracks_raise | apply tracks_ret].
Qed.

Lemma tracks_launch : tracks (fun o => later_step o = false) (launch E).
Proof.
  rewrite launch_run_calls. apply tracks_run_calls.
  by repeat constructor.
Qed.

Lemma tracks_verify_themes v :
  tracks (fun o => o ∈ verify_themes_calls v) (verify_themes E v).
Proof.
  rewrite verify_themes_run_calls. apply tracks_run_calls.
  by apply Forall_forall.
Qed.
End tracking.

(** ** The order of the two strategies *)

(** Pages that are passed over, or match with an empty identifier, give
    the scan nothing truthy. *)
Lemma scan_yields_falsy pages :
  Forall (fun pg => passed_over pg = true ∨
            (is_match pg = true ∧
             Py.split "/" (page_url pg) !! 2%nat = Some "")) pages →
  ∃ v, scan_yields pages v ∧ Py.truthy v = false.
Proof.
  induction 1 as [|pg rest [Hpg|[Hpg Hid]] _ (v & Hv & Hfalsy)].
  - exists None. split; [|done]. by apply scan_no_match.
  - exists v. split; [|done].
    destruct Hv as [Hall|pre pg' post id -> Hpre Hpg' Hid].
    + apply scan_no_match. by constructor.
    + apply (scan_first_match _ (pg :: pre) pg' post id); [done| |done..].
      by constructor.
  - exists (Some ""). split; [|done].
    by apply (scan_first_match _ [] pg rest "").
Qed.

(** C2.  Discovery tries its two strategies in a fixed order: the pages
    first, in list order, taking the first page with an extension URL and
    the title ["Password Memo"]; the service workers are consulted only
    when the pages gave no truthy identifier, and then the first worker
    whose URL contains ["background"] is taken. *)
Theorem discovery_order (E : env) (w : world) (v : option string) :
  e_raises E ContextPages = None →
  e_raises E ContextServiceWorkers = None →
  scan_yields (e_pages E) v →
  (Py.truthy v = true →
   ∃ l, find_extension_id E w = (extend w ((ContextPages, None) :: l), Ok v) ∧
        Forall (fun x => ∃ i, x.1 = PageTitle i) l) ∧
  (Py.truthy v = false →
   (∃ l, w_log (find_extension_id E w).1
         = w_log w ++ (ContextPages, None) :: l
             ++ [(ContextServiceWorkers, None)] ∧
         Forall (fun x => ∃ i, x.1 = PageTitle i) l) ∧
   ∀ pre t post,
     e_service_workers E = pre ++ t :: post →
     Forall (fun t => is_background t = false) pre →
     is_background t = true →
     (find_extension_id E w).2
     = match Py.split "/" (worker_url t) !! 2%nat with
       | Some id =>
           if Py.truthy_str id then Ok (Some id)
           else Raise (Exn Exception "Could not find extension ID")
       | None => Raise (Exn IndexError "list index out of range")
       end).
Proof.
  intros Hpages Hworkers Hv.
  destruct (scan_pages_yields _ _ (extend w [(ContextPages, None)]) Hv)
    as (l & Hscan & Hl).
  rewrite extend_extend in Hscan. split; intros Htruthy.
  - exists l. split; [|done].
    by apply (find_extension_id_from_pages E w _ v Hpages).
  - rewrite (find_extension_id_fallback E w _ v Hpages Hworkers Hscan Htruthy).
    split.
    + exists l. split; [|done]. unfold bind.
      pose proof (scan_service_workers_world (e_service_workers E) v
                    (extend (extend w ([(ContextPages, None)] ++ l))
                       [(ContextServiceWorkers, None)])) as Hw.
      destruct (scan_service_workers _ _ _) as [w' [v'|e]];
        simpl in Hw; subst w'.
      * destruct (negb (Py.truthy v')); simpl; by rewrite <-app_assoc.
      * simpl. by rewrite <-app_assoc.
    + intros pre t post -> Hpre Ht. unfold bind at 1.
      rewrite scan_service_workers_first by done.
      unfold bind, getitem.
      destruct (Py.split "/" (worker_url t) !! 2%nat) as [id|]; [|done].
      simpl. by destruct (Py.truthy_str id).
Qed.

Lemma discovery_order_witness :
  (∃ l, find_extension_id (Demo.quiet [Demo.tab] [Demo.background])
          (initial ∅ ∅)
        = (extend (initial ∅ ∅) ((ContextPages, None) :: l),
           Ok (Some "abcdefgh")) ∧
        Forall (fun x => ∃ i, x.1 = PageTitle i) l) ∧
  (find_extension_id (Demo.quiet [] [Demo.background]) (initial ∅ ∅)).2
  = Ok (Some "abcdefgh").
Proof.
  split.
  - refine (proj1 (discovery_order (Demo.quiet [Demo.tab] [Demo.background])
                     (initial ∅ ∅) (Some "abcdefgh") eq_refl eq_refl _)
              eq_refl).
    apply (scan_first_match _ [] Demo.tab [] "abcdefgh");
      [reflexivity | constructor | reflexivity | reflexivity].
  - refine (proj2 (proj2 (discovery_order (Demo.quiet [] [Demo.background])
                            (initial ∅ ∅) None eq_refl eq_refl _)
                     eq_refl) [] Demo.background [] eq_refl _ eq_refl).
    + apply scan_no_match. constructor.
    + constructor.
Defined.

(** ** From discovery to the rest of the run *)

Section whole_run.
Variable E : env.
Implicit Types (w : world) (v : option string).

Lemma run_stops_in_launch w w0 e :
  launch E w = (w0, Raise e) → test_theme_switching E w = (w0, Raise e).
Proof. intros H. unfold test_theme_switching. by rewrite (bind_raises _ _ _ _ _ H). Qed.

Lemma run_stops_in_discovery w w0 w1 e :
  launch E w = (w0, Ok tt) →
  find_extension_id E w0 = (w1, Raise e) →
  test_theme_switching E w = (w1, Raise e).
Proof.
  intros Hl Hf. unfold test_theme_switching.
  rewrite (bind_ok _ _ _ _ _ Hl). by rewrite (bind_raises _ _ _ _ _ Hf).
Qed.

Lemma run_goes_on w w0 w1 v :
  launch E w = (w0, Ok tt) →
  find_extension_id E w0 = (w1, Ok v) →
  test_theme_switching E w = verify_themes E v w1.
Proof.
  intros Hl Hf. unfold test_theme_switching.
  rewrite (bind_ok _ _ _ _ _ Hl). by rewrite (bind_ok _ _ _ _ _ Hf).
Qed.

(** The three ways a run can go. *)
Lemma run_cases w :
  (∃ w0 e, launch E w = (w0, Raise e) ∧
           test_theme_switching E w = (w0, Raise e)) ∨
  (∃ w0 w1 e, launch E w = (w0, Ok tt) ∧
              find_extension_id E w0 = (w1, Raise e) ∧
              test_theme_switching E w = (w1, Raise e)) ∨
  (∃ w0 w1 v, launch E w = (w0, Ok tt) ∧
              find_extension_id E w0 = (w1, Ok v) ∧
              test_theme_switching E w = verify_themes E v w1).
Proof.
  destruct (launch E w) as [w0 [[]|e]] eqn:Hl.
  - destruct (find_extension_id E w0) as [w1 [v|e]] eqn:Hf.
    + right; right. exists w0, w1, v. eauto using run_goes_on.
    + right; left. exists w0, w1, e. eauto using run_stops_in_discovery.
  - left. exists w0, e. eauto using run_stops_in_launch.
Qed.
End whole_run.

(** C1.  When the pages give the scan nothing (no page with an extension
    URL and the title ["Password Memo"], or only such pages with an empty
    identifier) and no service worker has ["background"] in its URL, the
    run raises [Exception("Could not find extension ID")], and none of the
    later steps (navigation, wait, clicks, screenshots) is made. *)
Theorem could_not_find_extension_id (E : env) (w w0 : world) :
  launch E w = (w0, Ok tt) →
  e_raises E ContextPages = None →
  e_raises E ContextServiceWorkers = None →
  Forall (fun pg => passed_over pg = true ∨
            (is_match pg = true ∧
             Py.split "/" (page_url pg) !! 2%nat = Some ""))
    (e_pages E) →
  Forall (fun t => is_background t = false) (e_service_workers E) →
  ∃ l, test_theme_switching E w
       = (extend w0 l, Raise (Exn Exception "Could not find extension ID")) ∧
       Forall (fun x => later_step x.1 = false) l.
Proof.
  intros Hlaunch Hpages Hworkers Hps Hts.
  destruct (scan_yields_falsy _ Hps) as (v & Hv & Hfalsy).
  destruct (scan_pages_yields _ _ (extend w0 [(ContextPages, None)]) Hv)
    as (l & Hscan & Hl).
  exists ([(ContextPages, None)] ++ l ++ [(ContextServiceWorkers, None)]).
  split.
  - apply (run_stops_in_discovery E w w0); [done|].
    rewrite (find_extension_id_fallback E w0 _ v Hpages Hworkers Hscan Hfalsy).
    unfold bind. rewrite scan_service_workers_none by done.
    rewrite Hfalsy. simpl. by rewrite !extend_extend.
  - apply Forall_app. split; [by repeat constructor|].
    apply Forall_app. split; [|by repeat constructor].
    eapply Forall_impl; [exact Hl|]. by intros x [i ->].
Qed.

Lemma could_not_find_extension_id_witness :
  ∃ l, test_theme_switching
         (Demo.quiet [Page "chrome-extension:///popup.html" (Ok "Password Memo");
                      Page "https://example.org/" (Ok "Password Memo");
                      Page "chrome-extension://abcdefgh/popup.html"
                        (Raise (Exn PlaywrightError "Target closed"))]
                     [Worker "chrome-extension://abcdefgh/worker.js"])
         (initial ∅ ∅)
       = (extend (launch (Demo.quiet [] []) (initial ∅ ∅)).1 l,
          Raise (Exn Exception "Could not find extension ID")) ∧
       Forall (fun x => later_step x.1 = false) l.
Proof.
  apply could_not_find_extension_id; [reflexivity..| |].
  - constructor; [right; split; reflexivity|].
    constructor; [left; reflexivity|].
    constructor; [left; reflexivity|]. constructor.
  - constructor; [reflexivity | constructor].
Defined.

(** C10.  The page scan stops at the first matching page also when the
    identifier taken from its URL is the empty string: the pages after it
    are not examined, the empty identifier counts as not found, and
    discovery goes on to the service workers instead of returning it. *)
Theorem empty_id_stops_scan (E : env) (w : world) pre pg post :
  e_raises E ContextPages = None →
  e_raises E ContextServiceWorkers = None →
  e_pages E = pre ++ pg :: post →
  Forall (fun pg => passed_over pg = true) pre →
  is_match pg = true →
  Py.split "/" (page_url pg) !! 2%nat = Some "" →
  scan_pages 0 (pre ++ pg :: post) None w
  = (extend w (titles_log 0 pre ++ [(PageTitle (length pre), None)]),
     Ok (Some "")) ∧
  find_extension_id E w
  = (extension_id <- scan_service_workers (e_service_workers E) (Some "") ;;
     if negb (Py.truthy extension_id) then
       raise (Exn Exception "Could not find extension ID")
     else ret extension_id)%stmt
      (extend w ((ContextPages, None) :: titles_log 0 pre
                 ++ [(PageTitle (length pre), None);
                     (ContextServiceWorkers, None)])) ∧
  (find_extension_id E w).2 ≠ Ok (Some "").
Proof.
  intros Hpages Hworkers HE Hpre Hpg Hid.
  assert (Hscan : ∀ w', scan_pages 0 (pre ++ pg :: post) None w'
    = (extend w' (titles_log 0 pre ++ [(PageTitle (length pre), None)]),
       Ok (Some ""))).
  { intros w'. by rewrite (scan_pages_first_match _ _ _ _ _ _ "") by done. }
  split_and!.
  - apply Hscan.
  - rewrite (find_extension_id_fallback E w
               (extend (extend w [(ContextPages, None)])
                  (titles_log 0 pre ++ [(PageTitle (length pre), None)]))
               (Some "") Hpages Hworkers);
      [|rewrite HE; apply Hscan|done].
    rewrite !extend_extend. simpl. by rewrite <-app_assoc.
  - destruct (find_extension_id E w) as [w1 [v|e]] eqn:Hfind; [|done].
    apply find_extension_id_truthy in Hfind. simpl. by intros [= ->].
Qed.

Lemma empty_id_stops_scan_witness :
  let E := Demo.quiet [Page "chrome-extension://" (Ok "Password Memo");
                       Demo.tab] [Demo.background] in
  scan_pages 0 ([] ++ Page "chrome-extension://" (Ok "Password Memo")
                  :: [Demo.tab]) None (initial ∅ ∅)
  = (extend (initial ∅ ∅) [(PageTitle 0, None)], Ok (Some "")) ∧
  (find_extension_id E (initial ∅ ∅)).2 = Ok (Some "abcdefgh").
Proof.
  intros E.
  destruct (empty_id_stops_scan E (initial ∅ ∅) []
              (Page "chrome-extension://" (Ok "Password Memo")) [Demo.tab])
    as (Hscan & Hfind & _);
    [reflexivity | reflexivity | reflexivity | constructor
    | reflexivity | reflexivity |].
  split; [exact Hscan|]. rewrite Hfind. reflexivity.
Defined.

(** C9.  The service-worker fallback takes index 2 of the split URL with
    no check of its length: when the first worker whose URL contains
    ["background"] has fewer than three fields (the URL ["background"]
    has one), the run ends with [IndexError] and not with
    ["Could not find extension ID"]. *)
Theorem short_background_url_raises_IndexError
    (E : env) (w w0 : world) (v : option string) pre t post :
  launch E w = (w0, Ok tt) →
  e_raises E ContextPages = None →
  e_raises E ContextServiceWorkers = None →
  scan_yields (e_pages E) v →
  Py.truthy v = false →
  e_service_workers E = pre ++ t :: post →
  Forall (fun t => is_background t = false) pre →
  is_background t = true →
  (length (Py.split "/" (worker_url t)) < 3)%nat →
  (test_theme_switching E w).2
  = Raise (Exn IndexError "list index out of range").
Proof.
  intros Hlaunch Hpages Hworkers Hv Hfalsy HE Hpre Ht Hlen.
  destruct (scan_pages_yields _ _ (extend w0 [(ContextPages, None)]) Hv)
    as (l & Hscan & _).
  pose proof (find_extension_id_fallback E w0 _ v Hpages Hworkers Hscan Hfalsy)
    as Hfind.
  unfold bind at 1 in Hfind.
  rewrite HE, scan_service_workers_first in Hfind by done.
  unfold bind, getitem in Hfind.
  rewrite (lookup_ge_None_2 _ 2%nat) in Hfind by lia.
  cbv [raise] in Hfind.
  by rewrite (run_stops_in_discovery E w w0 _ _ Hlaunch Hfind).
Qed.

Lemma short_background_url_raises_IndexError_witness :
  (test_theme_switching (Demo.quiet [] [Worker "background"])
     (initial ∅ ∅)).2
  = Raise (Exn IndexError "list index out of range").
Proof.
  apply (short_background_url_raises_IndexError
           (Demo.quiet [] [Worker "background"]) (initial ∅ ∅)
           (launch (Demo.quiet [] []) (initial ∅ ∅)).1 None
           [] (Worker "background") []);
    [reflexivity | reflexivity | reflexivity | apply scan_no_match; constructor
    | reflexivity | reflexivity | constructor | reflexivity | simpl; lia].
Defined.

(** C8.  Whenever the run gets to the navigation step, the identifier is
    a non-empty string: [find_extension_id] returns nothing falsy, and
    every later step that is ever made (the [goto] among them) is made
    with such an identifier. *)
Theorem navigation_has_identifier :
  (∀ (E : env) (w w1 : world) (v : option string),
     find_extension_id E w = (w1, Ok v) → ∃ id, v = Some id ∧ id ≠ "") ∧
  (∀ (E : env) d f (o : op),
     later_step o = true →
     o ∈ calls (test_theme_switching E (initial d f)).1 →
     ∃ id, id ≠ "" ∧ o ∈ verify_themes_calls (Some id) ∧
       ∀ url, o = Goto url →
              url = "chrome-extension://" +:+ id +:+ "/options.html").
Proof.
  split.
  - intros E w w1 v Hfind%find_extension_id_truthy.
    by apply truthy_spec.
  - intros E d f o Ho Hin. unfold calls in Hin.
    assert (Hearly : ∀ l : list (op * option exn),
      Forall (fun x => later_step x.1 = false) l → o ∉ l.*1).
    { intros l Hl [x [-> Hx]]%list_elem_of_fmap.
      rewrite Forall_forall in Hl. apply Hl in Hx. congruence. }
    revert Hin.
    destruct (run_cases E (initial d f))
      as [(w0 & e & Hl & ->)|[(w0 & w1 & e & Hl & Hf & ->)
                              |(w0 & w1 & v & Hl & Hf & Hrun)]];
      intros Hin.
    + destruct (tracks_launch E (initial d f)) as (l & Hlog & Hops & _).
      rewrite Hl in Hlog. simpl in *. rewrite Hlog in Hin.
      by apply Hearly in Hin.
    + destruct (tracks_launch E (initial d f)) as (l & Hlog & Hops & _).
      destruct (tracks_find_extension_id E w0) as (l' & Hlog' & Hops' & _).
      rewrite Hl in Hlog. rewrite Hf in Hlog'. simpl in *.
      rewrite Hlog', Hlog in Hin. apply Hearly in Hin; [done|].
      by apply Forall_app.
    + destruct (tracks_launch E (initial d f)) as (l & Hlog & Hops & _).
      destruct (tracks_find_extension_id E w0) as (l' & Hlog' & Hops' & _).
      destruct (tracks_verify_themes E v w1) as (l'' & Hlog'' & Hops'' & _).
      rewrite Hl in Hlog. rewrite Hf in Hlog'. rewrite <-Hrun in Hlog''.
      simpl in *. rewrite Hlog'', Hlog', Hlog in Hin.
      rewrite fmap_app in Hin. apply elem_of_app in Hin as [Hin|Hin].
      { apply Hearly in Hin; [done|]. by apply Forall_app. }
      apply find_extension_id_truthy, truthy_spec in Hf as (id & -> & Hid).
      exists id. apply list_elem_of_fmap in Hin as [x [-> Hx]].
      rewrite Forall_forall in Hops''. apply Hops'' in Hx.
      split_and!; [done..|]. intros url Hurl. rewrite Hurl in Hx.
      unfold verify_themes_calls in Hx.
      repeat (apply elem_of_cons in Hx as [Hx|Hx]; [try done|]).
      * by injection Hx as ->.
      * by apply elem_of_nil in Hx.
Qed.

Lemma navigation_has_identifier_witness :
  (∃ id, Some "abcdefgh" = Some id ∧ id ≠ "") ∧
  ∃ id, id ≠ "" ∧
    Goto "chrome-extension://abcdefgh/options.html"
      ∈ verify_themes_calls (Some id) ∧
    ∀ url, Goto "chrome-extension://abcdefgh/options.html" = Goto url →
           url = "chrome-extension://" +:+ id +:+ "/options.html".
Proof.
  split.
  - apply (proj1 navigation_has_identifier (Demo.quiet [Demo.tab] [])
             (initial ∅ ∅)
             (find_extension_id (Demo.quiet [Demo.tab] []) (initial ∅ ∅)).1).
    reflexivity.
  - apply (proj2 navigation_has_identifier (Demo.quiet [Demo.tab] []) ∅ ∅);
      [reflexivity|].
    vm_compute. do 8 apply list_elem_of_further. apply list_elem_of_here.
Defined.

(** ** Creating directories *)

Section makedirs.
Variable files : gmap string (list Byte.byte).
Implicit Types (d : gset (list string)) (name : list string) (a b : string).

(** The [try: mkdir(name) except OSError: ...] at the end of [makedirs],
    with [exist_ok=True], on a path whose parent is there and that no
    regular file has: the directory is made if it is missing, and nothing
    is raised if it is there. *)
Lemma mkdir_exist_ok name d :
  name ≠ [] →
  Os.resolve_dir files [] (removelast name) d = None →
  Os.path_isfile files name = false →
  try_except (Os.mkdir files name) isinstance_OSError
    (fun e =>
       isdir <- gets (Os.path_isdir name) ;;
       if negb true || negb isdir then raise e else ret tt)%stmt d
  = (if bool_decide (name ∈ d) then d else {[name]} ∪ d, Ok tt).
Proof.
  intros Hname Hparent Hfile.
  unfold try_except, Os.mkdir, Os.path_exists, Os.path_isdir.
  rewrite bool_decide_eq_false_2 by done. rewrite Hparent, Hfile.
  destruct (bool_decide (name ∈ d)) eqn:Hin; simpl; [|done].
  unfold bind, gets. by rewrite Hin.
Qed.

(** [makedirs] on a path of two names, with [exist_ok=True] and no
    regular file in the way, when the first name is there. *)
Lemma makedirs_parent_present a b d :
  Os.path_isfile files [a] = false →
  Os.path_isfile files [a; b] = false →
  [a] ∈ d →
  Os.makedirs files [a; b] true d
  = (if bool_decide ([a; b] ∈ d) then d else {[ [a; b] ]} ∪ d, Ok tt).
Proof.
  intros Ha Hab Hin. unfold Os.makedirs. cbn [rev app Os.makedirs_rev].
  unfold bind at 1, gets, Os.path_exists, Os.path_isdir at 1.
  rewrite (bool_decide_eq_true_2 ([a] ∈ d)) by done. simpl orb.
  rewrite andb_false_r. unfold bind at 1, ret.
  apply mkdir_exist_ok; [done| |done].
  simpl. unfold Os.path_isdir. rewrite Ha.
  by rewrite (bool_decide_eq_true_2 ([a] ∈ d)).
Qed.

(** The same when the first name is missing: it is made first. *)
Lemma makedirs_parent_absent a b d :
  b ≠ "" →
  Os.path_isfile files [a] = false →
  Os.path_isfile files [a; b] = false →
  [a] ∉ d →
  Os.makedirs files [a; b] true d
  = (if bool_decide ([a; b] ∈ {[ [a] ]} ∪ d) then {[ [a] ]} ∪ d
     else {[ [a; b] ]} ∪ ({[ [a] ]} ∪ d), Ok tt).
Proof.
  intros Hb Ha Hab Hin. unfold Os.makedirs. cbn [rev app Os.makedirs_rev].
  unfold bind at 1, gets, Os.path_exists, Os.path_isdir at 1.
  rewrite (bool_decide_eq_false_2 ([a] ∈ d)) by done. rewrite Ha.
  rewrite (bool_decide_eq_true_2 ([a] ≠ [])) by done.
  apply truthy_str_spec in Hb as ->. simpl andb. cbv iota.
  unfold bind at 1, try_except at 1.
  unfold bind at 1, gets. simpl andb. cbv iota. unfold bind at 1, ret.
  rewrite mkdir_exist_ok by done.
  rewrite (bool_decide_eq_false_2 ([a] ∈ d)) by done.
  apply mkdir_exist_ok; [done| |done].
  simpl. unfold Os.path_isdir. rewrite Ha.
  rewrite (bool_decide_eq_true_2 ([a] ∈ {[ [a] ]} ∪ d)); [done|].
  apply elem_of_union_l. by apply elem_of_singleton.
Qed.

(** With [exist_ok=True] and no regular file in the way, [makedirs] on a
    path of two names succeeds: both directories are there afterwards,
    none is removed, and doing it again changes nothing. *)
Lemma makedirs_two_names a b d :
  b ≠ "" →
  Os.path_isfile files [a] = false →
  Os.path_isfile files [a; b] = false →
  ∃ d', Os.makedirs files [a; b] true d = (d', Ok tt) ∧
        [a; b] ∈ d' ∧ [a] ∈ d' ∧ d ⊆ d' ∧
        Os.makedirs files [a; b] true d' = (d', Ok tt).
Proof.
  intros Hb Ha Hab.
  assert (Hagain : ∀ d', [a] ∈ d' → [a; b] ∈ d' →
    Os.makedirs files [a; b] true d' = (d', Ok tt)).
  { intros d' H1 H2. rewrite makedirs_parent_present by done.
    by rewrite bool_decide_eq_true_2. }
  destruct (decide ([a] ∈ d)) as [Hin|Hin].
  - rewrite makedirs_parent_present by done.
    case_bool_decide as Hin2; eexists; split; try reflexivity.
    + split_and!; [done..|]. by apply Hagain.
    + assert ([a; b] ∈ {[ [a; b] ]} ∪ d)
        by (apply elem_of_union_l; by apply elem_of_singleton).
      assert ([a] ∈ {[ [a; b] ]} ∪ d) by by apply elem_of_union_r.
      split_and!; [done..|by apply union_subseteq_r'|by apply Hagain].
  - rewrite makedirs_parent_absent by done.
    assert ([a] ∈ {[ [a] ]} ∪ d)
      by (apply elem_of_union_l; by apply elem_of_singleton).
    case_bool_decide as Hin2; eexists; split; try reflexivity.
    + split_and!; [done..|by apply union_subseteq_r'|by apply Hagain].
    + assert ([a; b] ∈ {[ [a; b] ]} ∪ ({[ [a] ]} ∪ d))
        by (apply elem_of_union_l; by apply elem_of_singleton).
      assert ([a] ∈ {[ [a; b] ]} ∪ ({[ [a] ]} ∪ d))
        by by apply elem_of_union_r.
      split_and!; [done..| |by apply Hagain].
      etrans; apply union_subseteq_r'; done.
Qed.
End makedirs.

(** No regular file at a path, for [os.path.isfile]. *)
Lemma path_isfile_None (files : gmap string (list Byte.byte)) p :
  files !! String.concat "/" p = None → Os.path_isfile files p = false.
Proof. unfold Os.path_isfile. intros ->. by apply bool_decide_eq_false_2, is_Some_None. Qed.




(** ** What is swallowed and what is not *)

Lemma tracks_test_theme_switching (E : env) :
  tracks (fun _ => True) (test_theme_switching E).
Proof.
  unfold test_theme_switching.
  apply tracks_bind; [|intros _; apply tracks_bind; [|intros v]].
  - eapply tracks_weaken; [|apply tracks_launch]. done.
  - eapply tracks_weaken; [|apply tracks_find_extension_id]. done.
  - eapply tracks_weaken; [|apply tracks_verify_themes]. done.
Qed.

(** C7, as the code has it.  One kind of exception is swallowed: an
    exception deriving from [Exception] that [page.title()] raises in the
    page scan; the scan then goes on with the next page.  Every other
    exception raised by a call ends the run at once: the run raises that
    exception and the failing call is the last one made. *)
Theorem only_title_errors_are_swallowed :
  (∀ (E : env) d f (o : op) (e : exn),
     (o, Some e) ∈ w_log (test_theme_switching E (initial d f)).1 →
     (∀ i, o = PageTitle i → isinstance_Exception e = false) →
     (test_theme_switching E (initial d f)).2 = Raise e ∧
     last (w_log (test_theme_switching E (initial d f)).1) = Some (o, Some e)) ∧
  (∀ i pg rest v w e,
     Py.startswith (page_url pg) "chrome-extension://" = true →
     page_title pg = Raise e →
     isinstance_Exception e = true →
     scan_pages i (pg :: rest) v w
     = scan_pages (S i) rest v (extend w [(PageTitle i, Some e)])).
Proof.
  split.
  - intros E d f o e Hin Ho.
    destruct (tracks_test_theme_switching E (initial d f))
      as (l & Hlog & _ & Hprop).
    simpl in Hlog. rewrite Hlog in *.
    assert (Hbad : ¬ benign (o, Some e)).
    { unfold benign. simpl. destruct o; try (by intros []).
      intros Hb. erewrite Ho in Hb by done. done. }
    destruct Hprop as [Hall|(l0 & o' & e' & -> & Hall & Hr)].
    + rewrite Forall_forall in Hall. by apply Hall in Hin.
    + apply elem_of_app in Hin as [Hin|Hin].
      * rewrite Forall_forall in Hall. by apply Hall in Hin.
      * apply list_elem_of_singleton in Hin as [= -> ->].
        by rewrite last_snoc.
  - intros i pg rest v w e Hurl Htitle He.
    rewrite scan_pages_passed_over.
    + unfold title_entry. by rewrite Hurl, Htitle.
    + unfold passed_over, is_match, interrupts. by rewrite Hurl, Htitle, He.
Qed.

Lemma only_title_errors_are_swallowed_witness :
  let E := Env (fun p => p) [Demo.tab] [] (fun _ => None)
             (Exn AssertionError "Locator expected to be visible")
             (fun _ => []) (fun _ => None) in
  (test_theme_switching E (initial ∅ ∅)).2
  = Raise (Exn AssertionError "Locator expected to be visible") ∧
  scan_pages 0 [Page "chrome-extension://abcdefgh/popup.html"
                  (Raise (Exn PlaywrightError "Target closed"));
                Demo.tab] None (initial ∅ ∅)
  = scan_pages 1 [Demo.tab] None
      (extend (initial ∅ ∅)
         [(PageTitle 0, Some (Exn PlaywrightError "Target closed"))]).
Proof.
  intros E. destruct only_title_errors_are_swallowed as [Hraise Hscan].
  split.
  - refine (proj1 (Hraise E ∅ ∅ (ExpectToBeVisible (GetByText "Theme") 10000)
                     (Exn AssertionError "Locator expected to be visible")
                     _ _)).
    + vm_compute. do 9 apply list_elem_of_further. apply list_elem_of_here.
    + intros i Hi. discriminate Hi.
  - apply Hscan; reflexivity.
Defined.

(** An exception that is raised and lost: the title of the first page
    raises, the exception is logged, and the run goes on to the second
    page and ends without raising anything. *)
Lemma title_error_is_suppressed :
  let E := Demo.quiet [Page "chrome-extension://abcdefgh/popup.html"
                         (Raise (Exn PlaywrightError "Target closed"));
                       Demo.tab] [] in
  (PageTitle 0, Some (Exn PlaywrightError "Target closed"))
    ∈ w_log (test_theme_switching E (initial ∅ ∅)).1 ∧
  (test_theme_switching E (initial ∅ ∅)).2 = Ok tt ∧
  (test_theme_switching E (initial ∅ ∅)).2
  ≠ Raise (Exn PlaywrightError "Target closed").
Proof.
  intros E. split_and!.
  - vm_compute. do 4 apply list_elem_of_further. apply list_elem_of_here.
  - vm_compute. reflexivity.
  - vm_compute. discriminate.
Qed.

(** ** The options page and the screenshots *)

Section themes.
Variable E : env.
Implicit Types (w : world) (ops : list op).

Lemma only_logs_bind {A B} (m : M world A) (k : A → M world B) :
  only_logs m → (∀ a, only_logs (k a)) → only_logs (bind m k).
Proof.
  intros Hm Hk w. destruct (Hm w) as [l1 Hl1]. unfold bind.
  destruct (m w) as [w1 [a|e]]; simpl in *; subst w1.
  - destruct (Hk a (extend w l1)) as [l2 Hl2].
    exists (l1 ++ l2). by rewrite Hl2, extend_extend.
  - by exists l1.
Qed.

Lemma only_logs_quiet {A} (m : M world A) :
  (∀ w, (m w).1 = w) → only_logs m.
Proof. intros Hm w. exists []. by rewrite Hm, extend_nil. Qed.

Lemma only_logs_call o : effectless o = true → only_logs (call E o).
Proof.
  intros Ho w. unfold call. destruct (e_raises E o) as [e|]; [by eexists|].
  rewrite perform_effectless by done. by eexists.
Qed.

Lemma only_logs_launch : only_logs (launch E).
Proof.
  unfold launch.
  repeat (apply only_logs_bind; [by apply only_logs_call|intros _]).
  by apply only_logs_call.
Qed.

Lemma only_logs_scan_pages i pages v : only_logs (scan_pages i pages v).
Proof.
  revert i. induction pages as [|pg rest IH]; intros i; simpl.
  - by apply only_logs_quiet.
  - destruct (Py.startswith _ _); [|apply IH].
    apply only_logs_bind;
      [|intros [id|]; [by apply only_logs_quiet | apply IH]].
    intros w. unfold try_except, bind at 1, title.
    destruct (page_title pg) as [t|e]; simpl.
    + destruct (String.eqb t "Password Memo"); [|by eexists].
      unfold bind, getitem.
      destruct (Py.split "/" (page_url pg) !! 2%nat); by eexists.
    + destruct (isinstance_Exception e); by eexists.
Qed.

Lemma only_logs_find_extension_id : only_logs (find_extension_id E).
Proof.
  unfold find_extension_id.
  apply only_logs_bind; [by apply only_logs_call|intros _].
  apply only_logs_bind; [apply only_logs_scan_pages|intros v].
  apply only_logs_bind.
  - destruct (negb (Py.truthy v)); [|by apply only_logs_quiet].
    apply only_logs_bind; [by apply only_logs_call|intros _].
    apply only_logs_quiet, scan_service_workers_world.
  - intros v'. by destruct (negb (Py.truthy v')); apply only_logs_quiet.
Qed.

(** Calls that all returned: each was let through, each is logged as
    returned, and the screenshots among them are written. *)
Lemma run_calls_ok ops w w' :
  run_calls E ops w = (w', Ok tt) →
  Forall (fun o => e_raises E o = None) ops ∧
  w_log w' = w_log w ++ returned ops ∧
  w_files w' = written E ops (w_files w).
Proof.
  revert w. induction ops as [|o ops IH]; intros w.
  - intros [= <-]. simpl. by rewrite app_nil_r.
  - rewrite run_calls_cons. unfold bind.
    destruct (call E o w) as [w1 [[]|e]] eqn:Hcall; [|done].
    intros (Hops & Hlog & Hfiles)%IH.
    apply call_inv_ok in Hcall as (Ho & w2 & Hperform & ->).
    split_and!.
    + by constructor.
    + rewrite Hlog. simpl. rewrite <-app_assoc. f_equal.
      destruct o; simpl in Hperform; try by injection Hperform as <-.
      * destruct (visible_within _ _ _); [|done]. by injection Hperform as <-.
      * destruct (Os.makedirs _ _ _ _). by injection Hperform as <-.
    + rewrite Hfiles. simpl. f_equal.
      destruct o; simpl in Hperform; try by injection Hperform as <-.
      * destruct (visible_within _ _ _); [|done]. by injection Hperform as <-.
      * destruct (Os.makedirs _ _ _ _). by injection Hperform as <-.
Qed.

(** Calls that are let through and have no effect of their own. *)
Lemma run_calls_effectless ops (k : M world unit) w :
  Forall (fun o => effectless o = true ∧ e_raises E o = None) ops →
  (run_calls E ops ;; k)%stmt w = k (extend w (returned ops)).
Proof.
  intros Hops. revert w. induction Hops as [|o ops [Ho He] _ IH]; intros w.
  - simpl. by rewrite extend_nil.
  - unfold bind. rewrite run_calls_cons. unfold bind.
    rewrite (call_effectless E o w Ho He).
    specialize (IH (extend w [(o, None)])). unfold bind in IH.
    rewrite IH. by rewrite extend_extend.
Qed.

(** The wait that runs out of time. *)
Lemma wait_times_out target timeout w :
  e_raises E (ExpectToBeVisible target timeout) = None →
  (∀ t, e_visible_after E target = Some t → timeout < t) →
  call E (ExpectToBeVisible target timeout) w
  = (extend w [(ExpectToBeVisible target timeout, Some (e_timeout_error E))],
     Raise (e_timeout_error E)).
Proof.
  intros He Hvisible. unfold call. rewrite He. simpl.
  unfold visible_within. destruct (e_visible_after E target) as [t|]; [|done].
  specialize (Hvisible t eq_refl).
  by rewrite (proj2 (Z.leb_gt t timeout)).
Qed.
End themes.

Lemma run_calls_app (E : env) (ops1 ops2 : list op) (w : world) :
  run_calls E (ops1 ++ ops2) w
  = (run_calls E ops1 ;; run_calls E ops2)%stmt w.
Proof.
  revert w. induction ops1 as [|o ops1 IH]; intros w; [reflexivity|].
  rewrite <-app_comm_cons. unfold bind at 1.
  rewrite !run_calls_cons. unfold bind.
  destruct (call E o w) as [w1 [[]|e]]; [|reflexivity].
  by rewrite IH.
Qed.

(** C4.  Once discovery has given the identifier [id], the script opens a
    fresh page, navigates it to [chrome-extension://<id>/options.html] and
    waits for the text ["Theme"] to be visible, with a timeout of 10000
    milliseconds.  When the text is not visible within that time, the
    error of the wait is the error of the run: the wait is the last call
    made, so that no screenshot is taken and no file is written. *)
Theorem options_page_wait (E : env) (w w0 w1 : world) (id : string) :
  let url := "chrome-extension://" +:+ id +:+ "/options.html" in
  let wait := ExpectToBeVisible (GetByText "Theme") 10000 in
  let before :=
    [Print ("Extension ID: " +:+ id); Print ("Navigating to: " +:+ url);
     NewPage; Goto url] in
  launch E w = (w0, Ok tt) →
  find_extension_id E w0 = (w1, Ok (Some id)) →
  Forall (fun o => e_raises E o = None) before →
  (∃ r rest,
     w_log (test_theme_switching E w).1
     = w_log w1 ++ returned before ++ (wait, r) :: rest) ∧
  (e_raises E wait = None →
   (∀ t, e_visible_after E (GetByText "Theme") = Some t → 10000 < t) →
   test_theme_switching E w
   = (extend w1 (returned before ++ [(wait, Some (e_timeout_error E))]),
      Raise (e_timeout_error E))).
Proof.
  intros url wait before Hlaunch Hfind Hbefore.
  rewrite (run_goes_on E w w0 w1 _ Hlaunch Hfind), verify_themes_run_calls.
  set (after := [Makedirs "jules-scratch/verification" true;
     Screenshot "jules-scratch/verification/01_default_theme.png";
     Click (GetByRole "button" "Light");
     Screenshot "jules-scratch/verification/02_light_theme.png";
     Click (GetByRole "button" "Dark");
     Screenshot "jules-scratch/verification/03_dark_theme.png";
     ContextClose]).
  change (verify_themes_calls (Some id)) with (before ++ wait :: after).
  rewrite run_calls_app, run_calls_effectless;
    [|apply Forall_and; split; [by repeat constructor | done]].
  rewrite run_calls_cons. split.
  - destruct (call_log E wait (extend w1 (returned before)))
      as (r & Hlog & _).
    destruct (tracks_run_calls E (fun _ => True) after)
      with (w := (call E wait (extend w1 (returned before))).1)
      as (rest & Hrest & _); [by apply Forall_forall|].
    unfold bind.
    destruct (call E wait (extend w1 (returned before))) as [w2 [[]|e]];
      simpl in *.
    + exists r, rest. rewrite Hrest, Hlog, <-!app_assoc. done.
    + exists r, []. rewrite Hlog, <-!app_assoc. done.
  - intros Hwait Hvisible.
    rewrite (bind_raises _ _ _ _ _
               (wait_times_out E _ _ _ Hwait Hvisible)).
    by rewrite extend_extend.
Qed.

Lemma options_page_wait_witness :
  let E := Env (fun p => p) [Demo.tab] [] (fun _ => Some 10001)
             (Exn AssertionError "Locator expected to be visible")
             (fun _ => []) (fun _ => None) in
  (test_theme_switching E (initial ∅ ∅)).2
  = Raise (Exn AssertionError "Locator expected to be visible") ∧
  w_files (test_theme_switching E (initial ∅ ∅)).1 = ∅ ∧
  last (calls (test_theme_switching E (initial ∅ ∅)).1)
  = Some (ExpectToBeVisible (GetByText "Theme") 10000).
Proof.
  intros E.
  destruct (options_page_wait E (initial ∅ ∅) (launch E (initial ∅ ∅)).1
              (find_extension_id E (launch E (initial ∅ ∅)).1).1 "abcdefgh")
    as [_ Hrun]; [reflexivity | reflexivity | by repeat constructor |].
  rewrite Hrun; [by split_and! | reflexivity |].
  intros t [= <-]. lia.
Defined.

Lemma no_shot_or_click_early (l : list (op * option exn)) :
  Forall (fun x => later_step x.1 = false) l →
  filter (fun o => shot_or_click o = true) l.*1 = [].
Proof.
  induction 1 as [|[o r] l Ho _ IH]; [done|]. simpl in *.
  rewrite filter_cons_False; [done|]. by destruct o.
Qed.

(** C5.  On a run that ends without exception, the calls after the wait
    are, in this order: the creation of the directory, the screenshot
    [01_default_theme.png], the click on the button ["Light"], the
    screenshot [02_light_theme.png], the click on the button ["Dark"], the
    screenshot [03_dark_theme.png], and the closing of the context.  So
    the screenshots and clicks of the whole run are these three
    screenshots with the two clicks between them, and each screenshot is
    written at its path over whatever file was there. *)
Theorem three_screenshots (E : env) d f (w' : world) :
  let shot1 := "jules-scratch/verification/01_default_theme.png" in
  let shot2 := "jules-scratch/verification/02_light_theme.png" in
  let shot3 := "jules-scratch/verification/03_dark_theme.png" in
  test_theme_switching E (initial d f) = (w', Ok tt) →
  ∃ id pre,
    id ≠ "" ∧
    Forall (fun x => later_step x.1 = false) pre ∧
    w_log w'
    = pre
      ++ returned
           [Print ("Extension ID: " +:+ id);
            Print ("Navigating to: chrome-extension://" +:+ id
                   +:+ "/options.html");
            NewPage;
            Goto ("chrome-extension://" +:+ id +:+ "/options.html");
            ExpectToBeVisible (GetByText "Theme") 10000]
      ++ returned
           [Makedirs "jules-scratch/verification" true;
            Screenshot shot1; Click (GetByRole "button" "Light");
            Screenshot shot2; Click (GetByRole "button" "Dark");
            Screenshot shot3; ContextClose] ∧
    filter (fun o => shot_or_click o = true) (calls w')
    = [Screenshot shot1; Click (GetByRole "button" "Light");
       Screenshot shot2; Click (GetByRole "button" "Dark");
       Screenshot shot3] ∧
    w_files w'
    = <[shot3 := e_capture E shot3]>
        (<[shot2 := e_capture E shot2]>
           (<[shot1 := e_capture E shot1]> f)).
Proof.
  intros shot1 shot2 shot3 Hrun.
  destruct (run_cases E (initial d f))
    as [(w0 & e & _ & Hr)|[(w0 & w1 & e & _ & _ & Hr)
                           |(w0 & w1 & v & Hl & Hf & Hr)]];
    rewrite Hr in Hrun; [done..|].
  rewrite verify_themes_run_calls in Hrun.
  apply run_calls_ok in Hrun as (_ & Hlog & Hfiles).
  destruct (tracks_launch E (initial d f)) as (l0 & Hlog0 & Hearly0 & _).
  destruct (tracks_find_extension_id E w0) as (l1 & Hlog1 & Hearly1 & _).
  destruct (only_logs_launch E (initial d f)) as (l0' & Hw0).
  destruct (only_logs_find_extension_id E w0) as (l1' & Hw1).
  rewrite Hl in Hlog0, Hw0. rewrite Hf in Hlog1, Hw1.
  cbn [fst] in Hlog0, Hlog1, Hw0, Hw1.
  apply find_extension_id_truthy, truthy_spec in Hf as (id & -> & Hid).
  assert (Hpre : Forall (fun x => later_step x.1 = false) (l0 ++ l1))
    by by apply Forall_app.
  assert (Hpre_log : w_log w1 = l0 ++ l1).
  { rewrite Hlog1, Hlog0. reflexivity. }
  assert (Hpre_files : w_files w1 = f).
  { rewrite Hw1, Hw0. reflexivity. }
  exists id, (l0 ++ l1). split; [exact Hid|]. split; [exact Hpre|].
  split; [|split].
  - rewrite Hlog, Hpre_log. reflexivity.
  - unfold calls. rewrite Hlog, Hpre_log, fmap_app, filter_app.
    rewrite no_shot_or_click_early by exact Hpre. reflexivity.
  - rewrite Hfiles, Hpre_files. reflexivity.
Qed.

Lemma three_screenshots_witness :
  let w' := (test_theme_switching (Demo.quiet [Demo.tab] [])
               (initial ∅ {[ "jules-scratch/verification/02_light_theme.png"
                             := [Byte.x00] ]})).1 in
  filter (fun o => shot_or_click o = true) (calls w')
  = [Screenshot "jules-scratch/verification/01_default_theme.png";
     Click (GetByRole "button" "Light");
     Screenshot "jules-scratch/verification/02_light_theme.png";
     Click (GetByRole "button" "Dark");
     Screenshot "jules-scratch/verification/03_dark_theme.png"] ∧
  w_files w' !! "jules-scratch/verification/02_light_theme.png" = Some [].
Proof.
  intros w'.
  destruct (three_screenshots (Demo.quiet [Demo.tab] []) ∅
              {[ "jules-scratch/verification/02_light_theme.png"
                 := [Byte.x00] ]} w')
    as (id & pre & _ & _ & _ & Hsteps & Hfiles); [reflexivity|].
  split; [exact Hsteps|]. rewrite Hfiles.
  rewrite lookup_insert_ne by discriminate. apply lookup_insert_eq.
Defined.


(** * More of the script *)

(** ** The steps after discovery, in any run *)

Section later_steps.
Variable E : env.
Implicit Types (w : world) (ops made : list op).

(** A call writes a file only when it is a screenshot that returned. *)
Lemma call_files o w :
  w_files (call E o w).1
  = match (call E o w).2 with
    | Ok _ => written E [o] (w_files w)
    | Raise _ => w_files w
    end.
Proof.
  unfold call. destruct (e_raises E o); [done|].
  destruct o; simpl; try done.
  - by destruct (visible_within _ _ _).
  - by destruct (Os.makedirs _ _ _ _) as [? [[]|?]].
Qed.

Lemma written_app ops1 ops2 files :
  written E (ops1 ++ ops2) files = written E ops2 (written E ops1 files).
Proof. unfold written. by rewrite foldl_app. Qed.

(** A run of calls makes an initial segment of them: all of them when it
    returns, and up to the one that raises when it raises; the files are
    those of the calls that returned. *)
Lemma run_calls_made ops w :
  ∃ made,
    w_files (run_calls E ops w).1 = written E made (w_files w) ∧
    match (run_calls E ops w).2 with
    | Ok _ =>
        made = ops ∧ w_log (run_calls E ops w).1 = w_log w ++ returned made
    | Raise e =>
        ∃ o rest,
          ops = made ++ o :: rest ∧
          w_log (run_calls E ops w).1
          = w_log w ++ returned made ++ [(o, Some e)]
    end.
Proof.
  revert w. induction ops as [|o ops IH]; intros w.
  - exists []. simpl. by rewrite app_nil_r.
  - rewrite run_calls_cons. unfold bind.
    destruct (call_log E o w) as (r & Hlog & Hr).
    pose proof (call_files o w) as Hfiles.
    destruct (call E o w) as [w1 [[]|e]]; simpl in *; subst r.
    + destruct (IH w1) as (made & Hf & Hmade).
      exists (o :: made). split.
      * rewrite Hf, Hfiles. by rewrite (written_app [o] made).
      * destruct (run_calls E ops w1) as [w2 [[]|e]]; simpl in *.
        -- destruct Hmade as [-> Hl]. split; [done|].
           rewrite Hl, Hlog, <-app_assoc. done.
        -- destruct Hmade as (o' & rest & -> & Hl).
           exists o', rest. split; [done|].
           rewrite Hl, Hlog, <-app_assoc. done.
    + exists []. split; [done|]. by exists o, ops.
Qed.
End later_steps.

(** The shape of every run, whatever fails in it: either it stops before
    the steps after discovery and writes no file, or discovery gave a
    non-empty identifier and the steps after it are made in order, each
    only after the ones before it returned. *)
Lemma run_shape (E : env) d f :
  ∃ pre,
    Forall (fun x => later_step x.1 = false) pre ∧
    ((w_log (test_theme_switching E (initial d f)).1 = pre ∧
      w_files (test_theme_switching E (initial d f)).1 = f ∧
      ∃ e, (test_theme_switching E (initial d f)).2 = Raise e) ∨
     ∃ id made,
       id ≠ "" ∧
       w_files (test_theme_switching E (initial d f)).1 = written E made f ∧
       match (test_theme_switching E (initial d f)).2 with
       | Ok _ =>
           made = verify_themes_calls (Some id) ∧
           w_log (test_theme_switching E (initial d f)).1
           = pre ++ returned made
       | Raise e =>
           ∃ o rest,
             verify_themes_calls (Some id) = made ++ o :: rest ∧
             w_log (test_theme_switching E (initial d f)).1
             = pre ++ returned made ++ [(o, Some e)]
       end).
Proof.
  destruct (tracks_launch E (initial d f)) as (l0 & Hlog0 & Hearly0 & _).
  destruct (only_logs_launch E (initial d f)) as (l0' & Hw0).
  destruct (run_cases E (initial d f))
    as [(w0 & e & Hl & ->)|[(w0 & w1 & e & Hl & Hf & ->)
                            |(w0 & w1 & v & Hl & Hf & ->)]];
    rewrite Hl in Hlog0, Hw0; cbn [fst] in Hlog0, Hw0.
  - exists l0. split; [done|]. left. cbn [fst snd].
    split_and!; [done| |by exists e]. by rewrite Hw0.
  - destruct (tracks_find_extension_id E w0) as (l1 & Hlog1 & Hearly1 & _).
    destruct (only_logs_find_extension_id E w0) as (l1' & Hw1).
    rewrite Hf in Hlog1, Hw1. cbn [fst] in Hlog1, Hw1.
    exists (l0 ++ l1). split; [by apply Forall_app|]. left. cbn [fst snd].
    split_and!; [|by rewrite Hw1, Hw0|by exists e].
    rewrite Hlog1, Hlog0. reflexivity.
  - destruct (tracks_find_extension_id E w0) as (l1 & Hlog1 & Hearly1 & _).
    destruct (only_logs_find_extension_id E w0) as (l1' & Hw1).
    rewrite Hf in Hlog1, Hw1. cbn [fst] in Hlog1, Hw1.
    assert (Hpre : w_log w1 = l0 ++ l1).
    { rewrite Hlog1, Hlog0. reflexivity. }
    assert (Hfiles : w_files w1 = f) by by rewrite Hw1, Hw0.
    apply find_extension_id_truthy, truthy_spec in Hf as (id & -> & Hid).
    exists (l0 ++ l1). split; [by apply Forall_app|]. right.
    rewrite verify_themes_run_calls.
    destruct (run_calls_made E (verify_themes_calls (Some id)) w1)
      as (made & Hwritten & Hmade).
    exists id, made. rewrite Hfiles, Hpre in *. split_and!; [done..|].
    exact Hmade.
Qed.

(** X1.  In every run, whatever fails, the steps made after discovery
    are an initial segment of the sequence of lines 41-66 for one
    non-empty identifier: each step is made only after all the steps
    before it returned, and a step that raises is the last one made and
    gives the run its exception. *)
Theorem later_steps_in_order (E : env) d f :
  ∃ pre later,
    w_log (test_theme_switching E (initial d f)).1 = pre ++ later ∧
    Forall (fun x => later_step x.1 = false) pre ∧
    (later = [] ∨
     ∃ id made,
       id ≠ "" ∧ made `prefix_of` verify_themes_calls (Some id) ∧
       (later = returned made ∨
        ∃ o e,
          (made ++ [o]) `prefix_of` verify_themes_calls (Some id) ∧
          later = returned made ++ [(o, Some e)] ∧
          (test_theme_switching E (initial d f)).2 = Raise e)).
Proof.
  destruct (run_shape E d f)
    as (pre & Hpre & [(Hlog & _ & _)|(id & made & Hid & _ & Hshape)]).
  - exists pre, []. rewrite app_nil_r. by split_and!; [..|left].
  - destruct (test_theme_switching E (initial d f)).2 as [[]|e].
    + destruct Hshape as [-> Hlog].
      exists pre, (returned (verify_themes_calls (Some id))).
      split_and!; [done..|]. right.
      exists id, (verify_themes_calls (Some id)).
      split_and!; [done..|]. by left.
    + destruct Hshape as (o & rest & Hsteps & Hlog).
      exists pre, (returned made ++ [(o, Some e)]).
      split_and!; [done..|]. right. exists id, made.
      split_and!; [done|by exists (o :: rest)|]. right. exists o, e.
      split_and!; [|done..]. exists rest. by rewrite <-app_assoc.
Qed.

(** A split of a list that ends in [x] and has [x] nowhere else: either
    the split is at the end, or [x] is not in its first part nor at the
    split. *)
Lemma split_before_last {A} (l made rest : list A) (x o : A) :
  Forall (fun y => y ≠ x) l →
  l ++ [x] = made ++ o :: rest →
  (o = x ∧ made = l ∧ rest = []) ∨ (o ≠ x ∧ x ∉ made).
Proof.
  intros Hl Heq. rewrite Forall_forall in Hl.
  apply app_eq_inv in Heq as [(k & Hk1 & Hk2)|(k & Hk1 & Hk2)].
  - destruct k as [|y k]; simpl in Hk2.
    + injection Hk2 as -> ->. left. rewrite app_nil_r in Hk1. by subst.
    + injection Hk2 as -> Hk2. right. split.
      * intros ->. apply (Hl x); [|done].
        rewrite Hk1. apply elem_of_app. right. apply list_elem_of_here.
      * intros Hin. apply (Hl x); [|done].
        rewrite Hk1. apply elem_of_app. by left.
  - destruct k as [|y k]; simpl in Hk2.
    + injection Hk2 as <- <-. left. rewrite app_nil_r in Hk1. by subst.
    + injection Hk2 as _ Hk2. by destruct k.
Qed.

Lemma returned_calls (ops : list op) : (returned ops).*1 = ops.
Proof. induction ops as [|o ops IH]; [done|]. simpl. f_equal. exact IH. Qed.

Lemma early_not_later (pre : list (op * option exn)) (o : op) :
  Forall (fun x => later_step x.1 = false) pre →
  later_step o = true → o ∉ pre.*1.
Proof.
  intros Hpre Ho [x [-> Hx]]%list_elem_of_fmap.
  rewrite Forall_forall in Hpre. apply Hpre in Hx. congruence.
Qed.

(** X2.  [context.close()] is called exactly on the runs in which every
    step before it returned: a run calls it if and only if the run ends
    normally or ends with the exception that [close] itself raised.  A
    run that fails anywhere else leaves the browser context open. *)
Theorem context_closed_only_at_the_end (E : env) d f :
  ContextClose ∈ calls (test_theme_switching E (initial d f)).1 ↔
  (test_theme_switching E (initial d f)).2 = Ok tt ∨
  ∃ e, (test_theme_switching E (initial d f)).2 = Raise e ∧
       last (w_log (test_theme_switching E (initial d f)).1)
       = Some (ContextClose, Some e).
Proof.
  unfold calls.
  destruct (run_shape E d f)
    as (pre & Hpre & [(Hlog & _ & e0 & Hr)|(id & made & Hid & _ & Hshape)]).
  - rewrite Hlog, Hr. split.
    + intros Hin. by apply early_not_later in Hin.
    + intros [?|(e & _ & Hlast)]; [done|].
      apply last_Some_elem_of in Hlast.
      apply (list_elem_of_fmap_2 fst) in Hlast.
      by apply early_not_later in Hlast.
  - destruct (test_theme_switching E (initial d f)).2 as [[]|e].
    + destruct Hshape as [-> ->]. split; [by left|]. intros _.
      rewrite fmap_app, returned_calls. apply elem_of_app. right.
      unfold verify_themes_calls.
      do 11 apply list_elem_of_further. apply list_elem_of_here.
    + destruct Hshape as (o & rest & Hsteps & ->).
      change (verify_themes_calls (Some id))
        with ([Print ("Extension ID: " +:+ format (Some id));
               Print ("Navigating to: " +:+ options_page_url (Some id));
               NewPage;
               Goto (options_page_url (Some id));
               ExpectToBeVisible (GetByText "Theme") 10000;
               Makedirs "jules-scratch/verification" true;
               Screenshot "jules-scratch/verification/01_default_theme.png";
               Click (GetByRole "button" "Light");
               Screenshot "jules-scratch/verification/02_light_theme.png";
               Click (GetByRole "button" "Dark");
               Screenshot "jules-scratch/verification/03_dark_theme.png"]
              ++ [ContextClose]) in Hsteps.
      apply split_before_last in Hsteps;
        [|repeat (constructor; [discriminate|]); constructor].
      destruct Hsteps as [(-> & _ & _)|[Ho Hmade]].
      * rewrite !app_assoc, last_snoc. split; [|intros _].
        -- intros _. right. by exists e.
        -- rewrite fmap_app. apply elem_of_app. right.
           apply list_elem_of_here.
      * split.
        -- rewrite !fmap_app, returned_calls, !elem_of_app.
           intros [Hin|[Hin|Hin]].
           ++ by apply early_not_later in Hin.
           ++ done.
           ++ apply list_elem_of_singleton in Hin. simpl in Hin.
              by destruct Ho.
        -- intros [?|(e' & _ & Hlast)]; [done|].
           rewrite !app_assoc, last_snoc in Hlast. by injection Hlast as ->.
Qed.

(** X3.  The screenshots are written in the order of the script and a
    later one never without the earlier ones, whatever fails: after any
    run the files are the files from before the run with none, the
    first, the first two or all three of the captures written over
    them. *)
Theorem screenshots_written_in_order (E : env) d f :
  let shot1 := "jules-scratch/verification/01_default_theme.png" in
  let shot2 := "jules-scratch/verification/02_light_theme.png" in
  let shot3 := "jules-scratch/verification/03_dark_theme.png" in
  let files := w_files (test_theme_switching E (initial d f)).1 in
  files = f ∨
  files = <[shot1 := e_capture E shot1]> f ∨
  files = <[shot2 := e_capture E shot2]>
            (<[shot1 := e_capture E shot1]> f) ∨
  files = <[shot3 := e_capture E shot3]>
            (<[shot2 := e_capture E shot2]>
               (<[shot1 := e_capture E shot1]> f)).
Proof.
  intros shot1 shot2 shot3 files. subst files.
  destruct (run_shape E d f)
    as (pre & _ & [(_ & Hfiles & _)|(id & made & _ & Hfiles & Hshape)]);
    [by left|].
  rewrite Hfiles.
  assert (Hmade : ∃ k, made = take k (verify_themes_calls (Some id))).
  { destruct (test_theme_switching E (initial d f)).2 as [[]|e].
    - destruct Hshape as [-> _]. exists 12%nat. reflexivity.
    - destruct Hshape as (o & rest & -> & _).
      exists (length made). by rewrite take_app_length. }
  destruct Hmade as [k ->]. unfold verify_themes_calls.
  do 7 (destruct k as [|k]; [by left|]).
  do 2 (destruct k as [|k]; [right; by left|]).
  do 2 (destruct k as [|k]; [right; right; by left|]).
  destruct k as [|k]; [by do 3 right|].
  destruct k as [|k]; by do 3 right.
Qed.

(** ** The page scan, on any list of pages *)

Section page_scan.
Implicit Types (w : world) (pg : page) (pages : list page)
  (v : option string).

(** Whatever the pages are, the scan logs the titles of an initial
    segment of them. *)
Lemma scan_pages_prefix i pages v w :
  ∃ n, (scan_pages i pages v w).1 = extend w (titles_log i (take n pages)).
Proof.
  revert i w. induction pages as [|pg rest IH]; intros i w.
  - exists 0%nat. simpl. by rewrite extend_nil.
  - assert (Hgo_on : ∃ n,
      (scan_pages (S i) rest v (extend w (title_entry i pg))).1
      = extend w (titles_log i (take n (pg :: rest)))).
    { destruct (IH (S i) (extend w (title_entry i pg))) as [n Hn].
      exists (S n). rewrite Hn, extend_extend. done. }
    assert (Hstop : ∃ n,
      extend w (title_entry i pg)
      = extend w (titles_log i (take n (pg :: rest)))).
    { exists 1%nat. simpl. by rewrite app_nil_r. }
    revert Hgo_on Hstop. unfold title_entry. simpl.
    destruct (Py.startswith _ _); [|by rewrite extend_nil].
    unfold bind at 1, try_except, bind at 1, title.
    destruct (page_title pg) as [t|e]; simpl.
    + destruct (String.eqb t "Password Memo"); [|done].
      unfold bind, getitem.
      by destruct (Py.split "/" (page_url pg) !! 2%nat).
    + by destruct (isinstance_Exception e).
Qed.

Lemma titles_log_entries i pages x :
  x ∈ titles_log i pages →
  ∃ j pg,
    x.1 = PageTitle j ∧ (i ≤ j)%nat ∧ pages !! (j - i)%nat = Some pg ∧
    Py.startswith (page_url pg) "chrome-extension://" = true ∧
    x.2 = match page_title pg with Ok _ => None | Raise e => Some e end.
Proof.
  revert i. induction pages as [|pg rest IH]; intros i; simpl.
  - by intros ?%elem_of_nil.
  - intros [Hx|Hx]%elem_of_app.
    + unfold title_entry in Hx.
      destruct (Py.startswith _ _) eqn:Hurl; [|by apply elem_of_nil in Hx].
      apply list_elem_of_singleton in Hx as ->.
      exists i, pg. rewrite Nat.sub_diag. by split_and!.
    + destruct (IH _ Hx) as (j & pg' & Hop & Hij & Hpg' & Hurl & Hr).
      exists j, pg'. split_and!; [done|lia| |done..].
      by replace (j - i)%nat with (S (j - S i)) by lia.
Qed.

Lemma titles_log_NoDup i pages : NoDup (titles_log i pages).*1.
Proof.
  revert i. induction pages as [|pg rest IH]; intros i; simpl.
  - constructor.
  - rewrite fmap_app. apply NoDup_app. split_and!.
    + unfold title_entry. destruct (Py.startswith _ _); simpl.
      * apply NoDup_singleton.
      * constructor.
    + intros o Ho [x [-> Hx]]%list_elem_of_fmap.
      apply titles_log_entries in Hx as (j & _ & Hop & Hij & _).
      unfold title_entry in Ho. destruct (Py.startswith _ _); simpl in Ho.
      * apply list_elem_of_singleton in Ho. rewrite Hop in Ho.
        injection Ho as ->. lia.
      * by apply elem_of_nil in Ho.
    + apply IH.
Qed.
End page_scan.

(** X4.  The page scan asks [page.title()] only of pages whose URL starts
    with ["chrome-extension://"], of each such page at most once, and it
    changes nothing but the log: every title it logs is the title call
    of a page of the list with such a URL, logged with what that call did,
    and no title call is logged twice. *)
Theorem titles_asked_once_on_extension_pages
    (pages : list page) (v : option string) (w : world) :
  ∃ l, (scan_pages 0 pages v w).1 = extend w l ∧
       NoDup l.*1 ∧
       ∀ x, x ∈ l →
         ∃ j pg,
           x.1 = PageTitle j ∧ pages !! j = Some pg ∧
           Py.startswith (page_url pg) "chrome-extension://" = true ∧
           x.2 = match page_title pg with
                 | Ok _ => None
                 | Raise e => Some e
                 end.
Proof.
  destruct (scan_pages_prefix 0 pages v w) as [n Hn].
  exists (titles_log 0 (take n pages)). split_and!; [done| |].
  - apply titles_log_NoDup.
  - intros x (j & pg & Hop & _ & Hpg & Hurl & Hr)%titles_log_entries.
    exists j, pg. split_and!; [done| |done..].
    rewrite Nat.sub_0_r in Hpg. by apply lookup_take_Some in Hpg as [? _].
Qed.

(** X7.  The page scan raises nothing that derives from [Exception]: an
    exception that leaves it was raised by [page.title()] on a page with
    an extension URL and is outside [Exception].  In particular the index
    expression inside the [try] never makes the scan raise
    [IndexError]. *)
Theorem page_scan_raises_only_interrupts
    (i : nat) (pages : list page) (v : option string) (w : world) (e : exn) :
  (scan_pages i pages v w).2 = Raise e →
  isinstance_Exception e = false ∧
  ∃ pg, pg ∈ pages ∧
        Py.startswith (page_url pg) "chrome-extension://" = true ∧
        page_title pg = Raise e.
Proof.
  revert i w. induction pages as [|pg rest IH]; intros i w; [done|].
  assert (Hgo_on : ∀ w', (scan_pages (S i) rest v w').2 = Raise e →
    isinstance_Exception e = false ∧
    ∃ pg', pg' ∈ pg :: rest ∧
           Py.startswith (page_url pg') "chrome-extension://" = true ∧
           page_title pg' = Raise e).
  { intros w' (He & pg' & Hin & Hpg')%IH. split; [done|].
    exists pg'. split; [by right|done]. }
  simpl. destruct (Py.startswith _ _) eqn:Hurl; [|apply Hgo_on].
  unfold bind at 1, try_except, bind at 1, title.
  destruct (page_title pg) as [t|e'] eqn:Htitle; simpl.
  - destruct (String.eqb t "Password Memo"); [|apply Hgo_on].
    unfold bind, getitem.
    destruct (Py.split "/" (page_url pg) !! 2%nat); [done|apply Hgo_on].
  - destruct (isinstance_Exception e') eqn:He'; [apply Hgo_on|].
    intros [= ->]. split; [done|]. exists pg. split; [by left|done].
Qed.

Lemma page_scan_raises_only_interrupts_witness :
  isinstance_Exception (Exn KeyboardInterrupt "") = false ∧
  ∃ pg, pg ∈ [Page "https://example.org/" (Raise (Exn OSError "gone"));
              Page "chrome-extension://abcdefgh/popup.html"
                (Raise (Exn KeyboardInterrupt ""))] ∧
        Py.startswith (page_url pg) "chrome-extension://" = true ∧
        page_title pg = Raise (Exn KeyboardInterrupt "").
Proof.
  apply (page_scan_raises_only_interrupts 0 _ None (initial ∅ ∅)).
  reflexivity.
Defined.

Lemma scan_pages_interrupted i pre pg post v w :
  Forall (fun pg => passed_over pg = true) pre →
  interrupts pg = true →
  ∃ e, page_title pg = Raise e ∧ isinstance_Exception e = false ∧
    scan_pages i (pre ++ pg :: post) v w
    = (extend w (titles_log i pre ++ [(PageTitle (i + length pre), Some e)]),
       Raise e).
Proof.
  intros Hpre Hpg. revert i w.
  induction Hpre as [|pg' rest Hpg' _ IH]; intros i w.
  - destruct (scan_pages_interrupts i pg post v w Hpg) as (e & Ht & He & Hs).
    exists e. split_and!; [done..|]. simpl. by rewrite Nat.add_0_r.
  - destruct (IH (S i) (extend w (title_entry i pg')))
      as (e & Ht & He & Hs).
    exists e. split_and!; [done..|].
    rewrite <-app_comm_cons, scan_pages_passed_over by done.
    rewrite Hs, extend_extend. simpl.
    by rewrite <-app_assoc, Nat.add_succ_r.
Qed.

(** X5.  An exception outside [Exception] (a [KeyboardInterrupt], say)
    raised by [page.title()] is not swallowed: when it comes on a page
    that the scan reaches, the run ends with it there, the pages after
    it and the service workers are not looked at, and the run does not
    get to ["Could not find extension ID"]. *)
Theorem title_interrupt_ends_run (E : env) (w w0 : world) pre pg post :
  launch E w = (w0, Ok tt) →
  e_raises E ContextPages = None →
  e_pages E = pre ++ pg :: post →
  Forall (fun pg => passed_over pg = true) pre →
  interrupts pg = true →
  ∃ e, page_title pg = Raise e ∧ isinstance_Exception e = false ∧
    test_theme_switching E w
    = (extend w0 ((ContextPages, None) :: titles_log 0 pre
                  ++ [(PageTitle (length pre), Some e)]),
       Raise e).
Proof.
  intros Hlaunch Hpages HE Hpre Hpg.
  destruct (scan_pages_interrupted 0 pre pg post None
              (extend w0 [(ContextPages, None)]) Hpre Hpg)
    as (e & Ht & He & Hscan).
  exists e. split_and!; [done..|].
  apply (run_stops_in_discovery E w w0); [done|].
  unfold find_extension_id.
  rewrite (bind_ok _ _ _ _ _
             (call_effectless E ContextPages w0 eq_refl Hpages)).
  rewrite HE, (bind_raises _ _ _ _ _ Hscan). by rewrite extend_extend.
Qed.

Lemma title_interrupt_ends_run_witness :
  (test_theme_switching
     (Demo.quiet [Page "chrome-extension://abcdefgh/popup.html"
                    (Raise (Exn KeyboardInterrupt ""));
                  Demo.tab] [Demo.background])
     (initial ∅ ∅)).2
  = Raise (Exn KeyboardInterrupt "").
Proof.
  destruct (title_interrupt_ends_run
              (Demo.quiet [Page "chrome-extension://abcdefgh/popup.html"
                             (Raise (Exn KeyboardInterrupt ""));
                           Demo.tab] [Demo.background])
              (initial ∅ ∅) (launch (Demo.quiet [] []) (initial ∅ ∅)).1
              [] (Page "chrome-extension://abcdefgh/popup.html"
                    (Raise (Exn KeyboardInterrupt ""))) [Demo.tab])
    as (e & He & _ & Hrun);
    [reflexivity | reflexivity | reflexivity | constructor | reflexivity |].
  rewrite Hrun. simpl in He. by injection He as <-.
Defined.

(** ** The identifier as a field of a URL *)

Lemma getitem_split_segment {S} sep url n (w w' : S) id :
  getitem (Py.split sep url) n w = (w', Ok id) →
  Py.has_char sep id = false.
Proof.
  unfold getitem. destruct (Py.split sep url !! n) as [field|] eqn:Hn; [|done].
  intros [= _ <-].
  by apply (Forall_lookup_1 _ _ _ _ (split_fields_no_sep sep url) Hn).
Qed.

Lemma scan_pages_segment i pages v0 w v :
  segment v0 → (scan_pages i pages v0 w).2 = Ok v → segment v.
Proof.
  intros Hv0. revert i w. induction pages as [|pg rest IH]; intros i w; simpl.
  - by intros [= <-].
  - destruct (Py.startswith _ _); [|apply IH].
    unfold bind at 1, try_except, bind at 1, title.
    destruct (page_title pg) as [t|e]; simpl.
    + destruct (String.eqb t "Password Memo"); [|apply IH].
      unfold bind at 1.
      destruct (getitem _ _ _) as [w' [id|e]] eqn:Hid; simpl.
      * intros [= <-] id' [= <-]. by eapply getitem_split_segment.
      * destruct (isinstance_Exception e); [apply IH|done].
    + destruct (isinstance_Exception e); [apply IH|done].
Qed.

Lemma scan_service_workers_segment targets v0 w v :
  segment v0 → (scan_service_workers targets v0 w).2 = Ok v → segment v.
Proof.
  intros Hv0. induction targets as [|t rest IH]; simpl.
  - by intros [= <-].
  - destruct (Py.contains _ _); [|apply IH].
    unfold bind at 1.
    destruct (getitem _ _ _) as [w' [id|e]] eqn:Hid; simpl; [|done].
    intros [= <-] id' [= <-]. by eapply getitem_split_segment.
Qed.

Lemma find_extension_id_segment (E : env) w w1 v :
  find_extension_id E w = (w1, Ok v) → segment v.
Proof.
  unfold find_extension_id, bind.
  destruct (call E ContextPages w) as [w2 [[]|?]]; [|done].
  destruct (scan_pages _ _ _ _) as [w3 [v1|?]] eqn:Hscan; [|done].
  assert (Hv1 : segment v1).
  { apply (scan_pages_segment 0 (e_pages E) None w2); [done|].
    by rewrite Hscan. }
  destruct (negb (Py.truthy v1)).
  - destruct (call E ContextServiceWorkers w3) as [w4 [[]|?]]; [|done].
    destruct (scan_service_workers _ _ _) as [w5 [v2|?]] eqn:Hworkers;
      [|done].
    assert (Hv2 : segment v2).
    { apply (scan_service_workers_segment (e_service_workers E) v1 w4);
        [done|]. by rewrite Hworkers. }
    destruct (negb (Py.truthy v2)); [done|]. unfold ret. by intros [= _ <-].
  - unfold ret at 1. destruct (negb (Py.truthy v1)); [done|].
    unfold ret. by intros [= _ <-].
Qed.

(** X6.  The identifier that discovery returns is a non-empty string
    with no ["/"] in it, so the options-page URL built from it splits
    into the scheme, the empty field, the identifier and the page name:
    taking index 2 of that URL, as discovery does, gives the identifier
    back. *)
Theorem identifier_round_trip (E : env) (w w1 : world) (v : option string) :
  find_extension_id E w = (w1, Ok v) →
  ∃ id,
    v = Some id ∧ id ≠ "" ∧ Py.has_char "/" id = false ∧
    Py.split "/" (options_page_url v)
    = ["chrome-extension:"; ""; id; "options.html"] ∧
    Py.split "/" (options_page_url v) !! 2%nat = v.
Proof.
  intros Hfind. pose proof (find_extension_id_segment E w w1 v Hfind) as Hseg.
  apply find_extension_id_truthy, truthy_spec in Hfind as (id & -> & Hid).
  specialize (Hseg id eq_refl).
  assert (Hsplit : Py.split "/" (options_page_url (Some id))
                   = ["chrome-extension:"; ""; id; "options.html"]).
  { unfold options_page_url, format. rewrite split_extension_scheme.
    change (id +:+ "/options.html") with (id +:+ String "/" "options.html").
    by rewrite split_field. }
  exists id. split_and!; [done..|]. by rewrite Hsplit.
Qed.

Lemma identifier_round_trip_witness :
  ∃ id,
    Some "abcdefgh" = Some id ∧ id ≠ "" ∧ Py.has_char "/" id = false ∧
    Py.split "/" (options_page_url (Some "abcdefgh"))
    = ["chrome-extension:"; ""; id; "options.html"] ∧
    Py.split "/" (options_page_url (Some "abcdefgh")) !! 2%nat
    = Some "abcdefgh".
Proof.
  apply (identifier_round_trip (Demo.quiet [] [Demo.background])
           (initial ∅ ∅)
           (find_extension_id (Demo.quiet [] [Demo.background])
              (initial ∅ ∅)).1).
  reflexivity.
Defined.

(** A split has one field more than the string has separators. *)
Lemma split_length sep s :
  length (Py.split sep s) = S (Py.count sep s).
Proof.
  induction s as [|c s IH]; simpl; [done|].
  destruct (Ascii.eqb c sep); simpl; [by rewrite IH|].
  destruct (Py.split sep s) as [|field fields]; simpl in *; [done|].
  by rewrite IH.
Qed.

(** X8.  In the service-worker fallback the first worker whose URL
    contains ["background"] decides, and the outcome is read off the
    number of ["/"] in its URL: with fewer than two the extraction
    raises [IndexError], with two or more it yields the field at index
    2 and raises nothing. *)
Theorem fallback_raises_iff_few_slashes pre t post v (w : world) :
  Forall (fun t => is_background t = false) pre →
  is_background t = true →
  ((scan_service_workers (pre ++ t :: post) v w).2
   = Raise (Exn IndexError "list index out of range")
   ↔ (Py.count "/" (worker_url t) < 2)%nat) ∧
  ((2 ≤ Py.count "/" (worker_url t))%nat →
   ∃ id, Py.split "/" (worker_url t) !! 2%nat = Some id ∧
         scan_service_workers (pre ++ t :: post) v w = (w, Ok (Some id))).
Proof.
  intros Hpre Ht. rewrite scan_service_workers_first by done.
  pose proof (split_length "/" (worker_url t)) as Hlen.
  unfold bind, getitem.
  destruct (Py.split "/" (worker_url t) !! 2%nat) as [id|] eqn:Hid.
  - apply lookup_lt_Some in Hid as Hlt. split.
    + split; [done|lia].
    + intros _. by exists id.
  - apply lookup_ge_None in Hid. split.
    + split; [lia|done].
    + lia.
Qed.

Lemma fallback_raises_iff_few_slashes_witness :
  ((scan_service_workers ([Worker "https://example.org/sw.js"]
                          ++ Worker "background.js" :: [Demo.background])
      None (initial ∅ ∅)).2
   = Raise (Exn IndexError "list index out of range")
   ↔ (Py.count "/" "background.js" < 2)%nat) ∧
  ∃ id, Py.split "/" (worker_url Demo.background) !! 2%nat = Some id ∧
        scan_service_workers ([] ++ Demo.background :: []) None (initial ∅ ∅)
        = (initial ∅ ∅, Ok (Some id)).
Proof.
  split.
  - apply (fallback_raises_iff_few_slashes
             [Worker "https://example.org/sw.js"] (Worker "background.js")
             [Demo.background] None (initial ∅ ∅));
      [repeat constructor | reflexivity].
  - apply (fallback_raises_iff_few_slashes [] Demo.background [] None
             (initial ∅ ∅)); [constructor | reflexivity | simpl; lia].
Defined.

(** ** Calls that leave the disk alone *)

Section disk.
Variable E : env.
Implicit Types (w : world) (ops : list op).

Lemma call_no_disk o w :
  touches_disk o = false →
  w_dirs (call E o w).1 = w_dirs w ∧ w_files (call E o w).1 = w_files w.
Proof.
  intros Ho. unfold call. destruct (e_raises E o); [done|].
  destruct o; try done. simpl. by destruct (visible_within _ _ _).
Qed.

Lemma run_calls_no_disk ops w :
  Forall (fun o => touches_disk o = false) ops →
  w_dirs (run_calls E ops w).1 = w_dirs w ∧
  w_files (run_calls E ops w).1 = w_files w.
Proof.
  intros Hops. revert w. induction Hops as [|o ops Ho _ IH]; intros w.
  - done.
  - rewrite run_calls_cons. unfold bind.
    destruct (call_no_disk o w Ho) as [Hd Hf].
    destruct (call E o w) as [w1 [[]|e]]; cbn [fst] in *; [|done].
    destruct (IH w1) as [Hd1 Hf1].
    destruct (run_calls E ops w1) as [w2 r]; cbn [fst] in *.
    destruct r; cbn [fst]; by rewrite Hd1, Hf1.
Qed.
End disk.

(** ** When a run ends normally *)

Section normal_end.
Variable E : env.
Implicit Types (w : world) (v : option string) (ops : list op).

Lemma scan_yields_cons pg pages v :
  passed_over pg = true → scan_yields pages v → scan_yields (pg :: pages) v.
Proof.
  intros Hpg [Hall|pre pg' post id -> Hpre Hpg' Hid].
  - apply scan_no_match. by constructor.
  - apply (scan_first_match _ (pg :: pre) pg' post id); [done| |done..].
    by constructor.
Qed.

(** A page scan that returns did what [scan_yields] says. *)
Lemma scan_pages_ok_yields i pages w v :
  (scan_pages i pages None w).2 = Ok v → scan_yields pages v.
Proof.
  revert i w. induction pages as [|pg rest IH]; intros i w.
  - simpl. intros [= <-]. apply scan_no_match. constructor.
  - destruct (passed_over pg) eqn:Hpassed.
    { rewrite scan_pages_passed_over by done.
      intros Hrest%IH. by apply scan_yields_cons. }
    apply andb_false_iff in Hpassed as [Hpg|Hpg]; apply negb_false_iff in Hpg.
    + destruct (match_has_id pg Hpg) as [id Hid].
      rewrite (scan_pages_match _ _ _ _ _ id) by done.
      intros [= <-]. by apply (scan_first_match _ [] pg rest id).
    + destruct (scan_pages_interrupts i pg rest None w Hpg)
        as (e & _ & _ & ->). done.
Qed.

(** The service-worker scan either finds no worker to take and changes
    nothing, or stops at the first one to take. *)
Lemma scan_service_workers_cases targets :
  Forall (fun t => is_background t = false) targets ∨
  ∃ pre t post,
    targets = pre ++ t :: post ∧
    Forall (fun t => is_background t = false) pre ∧
    is_background t = true.
Proof.
  induction targets as [|t rest [Hall|(pre & t' & post & -> & Hpre & Ht')]].
  - left. constructor.
  - destruct (is_background t) eqn:Ht.
    + right. exists [], t, rest. by split_and!; [|constructor|].
    + left. by constructor.
  - destruct (is_background t) eqn:Ht.
    + right. exists [], t, (pre ++ t' :: post). by split_and!; [|constructor|].
    + right. exists (t :: pre), t', post. by split_and!; [|constructor|].
Qed.

(** What a discovery that returns tells about the browser. *)
Lemma find_extension_id_ok_inv w w1 v :
  find_extension_id E w = (w1, Ok v) →
  e_raises E ContextPages = None ∧
  ∃ id, v = Some id ∧ id ≠ "" ∧ discovers E id.
Proof.
  intros Hfind.
  pose proof (find_extension_id_truthy E w w1 v Hfind) as Hv.
  apply truthy_spec in Hv as (id & -> & Hid).
  revert Hfind. unfold find_extension_id. unfold bind at 1.
  destruct (call E ContextPages w) as [w2 [[]|?]] eqn:Hcall; [|done].
  apply call_inv_ok in Hcall as [Hpages _]. unfold bind at 1.
  destruct (scan_pages _ _ _ _) as [w3 [v1|?]] eqn:Hscan; [|done].
  assert (Hv1 : scan_yields (e_pages E) v1).
  { apply (scan_pages_ok_yields 0 _ w2). by rewrite Hscan. }
  intros Hfind. split; [done|]. exists id. split_and!; [done..|].
  revert Hfind. unfold bind at 1.
  destruct (Py.truthy v1) eqn:Htruthy; simpl.
  - rewrite Htruthy. simpl. intros [= _ ->]. by left.
  - unfold bind at 1.
    destruct (call E ContextServiceWorkers w3) as [w4 [[]|?]]; [|done].
    destruct (scan_service_workers_cases (e_service_workers E))
      as [Hnone|(pre & t & post & Hts & Hpre & Ht)].
    + rewrite scan_service_workers_none by done. by rewrite Htruthy.
    + rewrite Hts, scan_service_workers_first by done.
      unfold bind, getitem.
      destruct (Py.split "/" (worker_url t) !! 2%nat) as [id'|] eqn:Hid';
        [|done].
      simpl. destruct (Py.truthy_str id'); simpl; [|done].
      intros [= _ ->]. right. by exists v1, pre, t, post.
Qed.

(** What discovery returns when the browser has the identifier. *)
Lemma find_extension_id_discovers w id :
  e_raises E ContextPages = None →
  e_raises E ContextServiceWorkers = None →
  discovers E id → id ≠ "" →
  ∃ l, find_extension_id E w = (extend w l, Ok (Some id)).
Proof.
  intros Hpages Hworkers Hdisc Hid.
  destruct Hdisc as [Hv|(v & pre & t & post & Hv & Hfalsy & Hts & Hpre & Ht
                         & Hid2)].
  - destruct (scan_pages_yields _ _ (extend w [(ContextPages, None)]) Hv)
      as (l & Hscan & _).
    eexists. rewrite (find_extension_id_from_pages E w _ _ Hpages Hscan).
    + by rewrite extend_extend.
    + by apply truthy_spec; exists id.
  - destruct (scan_pages_yields _ _ (extend w [(ContextPages, None)]) Hv)
      as (l & Hscan & _).
    eexists.
    rewrite (find_extension_id_fallback E w _ _ Hpages Hworkers Hscan Hfalsy).
    unfold bind at 1. rewrite Hts, scan_service_workers_first by done.
    unfold bind, getitem. rewrite Hid2. simpl.
    apply truthy_str_spec in Hid as ->. simpl.
    by rewrite !extend_extend.
Qed.

(** Calls that are let through and whose effect does not fail return. *)
Lemma run_calls_returns ops w :
  Forall (fun o => e_raises E o = None ∧
                   ∀ w, ∃ w', perform E o w = (w', Ok tt)) ops →
  ∃ w', run_calls E ops w = (w', Ok tt).
Proof.
  intros Hops. revert w. induction Hops as [|o ops [Ho Hp] _ IH]; intros w.
  - by exists w.
  - rewrite run_calls_cons. destruct (Hp w) as [w1 Hw1].
    rewrite (bind_ok _ _ _ _ _ (call_performs E o w w1 Ho Hw1)).
    apply IH.
Qed.

(** Calls that returned had effects that did not fail. *)
Lemma run_calls_ok_perform ops w w' o :
  run_calls E ops w = (w', Ok tt) → o ∈ ops →
  ∃ wa wb, perform E o wa = (wb, Ok tt).
Proof.
  revert w. induction ops as [|o' ops IH]; intros w Hrun Hin.
  - by apply elem_of_nil in Hin.
  - rewrite run_calls_cons in Hrun. unfold bind in Hrun.
    destruct (call E o' w) as [w1 [[]|e]] eqn:Hcall; [|done].
    apply elem_of_cons in Hin as [->|Hin]; [|by eapply IH].
    apply call_inv_ok in Hcall as (_ & w2 & Hperform & _). eauto.
Qed.

(** The effect of creating the output directory does not fail when no
    regular file is in the way. *)
Lemma perform_makedirs_ok w :
  w_files w !! "jules-scratch" = None →
  w_files w !! "jules-scratch/verification" = None →
  ∃ w', perform E (Makedirs "jules-scratch/verification" true) w
        = (w', Ok tt).
Proof.
  intros Hparent Hdir. unfold perform.
  change (Os.components "jules-scratch/verification")
    with ["jules-scratch"; "verification"].
  destruct (makedirs_two_names (w_files w) "jules-scratch" "verification"
              (w_dirs w))
    as (d' & -> & _);
    [done | by apply path_isfile_None | by apply path_isfile_None |].
  by eexists.
Qed.

Lemma run_calls_returns_app ops1 ops2 w w1 w2 :
  run_calls E ops1 w = (w1, Ok tt) →
  run_calls E ops2 w1 = (w2, Ok tt) →
  run_calls E (ops1 ++ ops2) w = (w2, Ok tt).
Proof. intros H1 H2. rewrite run_calls_app. by rewrite (bind_ok _ _ _ _ _ H1). Qed.
End normal_end.

(** X9.  The run ends normally whenever nothing gets in its way: if no
    call fails, the browser has a non-empty identifier for discovery to
    find (on the first matching page, or on the first background worker
    when the pages give nothing), ["Theme"] is visible within 10000
    milliseconds, and no regular file has the name [jules-scratch] or
    [jules-scratch/verification], then the run returns, having navigated
    to the options page of that identifier and written the three
    screenshots. *)
Theorem run_succeeds (E : env) d f (id : string) (t : Z) :
  (∀ o, e_raises E o = None) →
  discovers E id → id ≠ "" →
  e_visible_after E (GetByText "Theme") = Some t → t ≤ 10000 →
  f !! "jules-scratch" = None →
  f !! "jules-scratch/verification" = None →
  ∃ w',
    test_theme_switching E (initial d f) = (w', Ok tt) ∧
    Goto ("chrome-extension://" +:+ id +:+ "/options.html") ∈ calls w' ∧
    w_files w' = written E (verify_themes_calls (Some id)) f.
Proof.
  intros Hquiet Hdisc Hid Hvisible Ht Hparent Hdir.
  destruct (run_calls_returns E (launch_calls E) (initial d f))
    as [w0 Hlaunch].
  { repeat (constructor; [split; [apply Hquiet|by eexists]|]). constructor. }
  rewrite <-launch_run_calls in Hlaunch.
  destruct (find_extension_id_discovers E w0 id (Hquiet _) (Hquiet _)
              Hdisc Hid) as [l Hfind].
  pose proof (only_logs_launch E (initial d f)) as [l0 Hw0].
  rewrite Hlaunch in Hw0. cbn [fst] in Hw0.
  set (upto := [Print ("Extension ID: " +:+ format (Some id));
                Print ("Navigating to: " +:+ options_page_url (Some id));
                NewPage; Goto (options_page_url (Some id));
                ExpectToBeVisible (GetByText "Theme") 10000]).
  set (after := [Screenshot "jules-scratch/verification/01_default_theme.png";
    Click (GetByRole "button" "Light");
    Screenshot "jules-scratch/verification/02_light_theme.png";
    Click (GetByRole "button" "Dark");
    Screenshot "jules-scratch/verification/03_dark_theme.png";
    ContextClose]).
  destruct (run_calls_returns E upto (extend w0 l)) as [w2 Hupto].
  { assert (Hwait : ∀ w, ∃ w1,
      perform E (ExpectToBeVisible (GetByText "Theme") 10000) w
      = (w1, Ok tt)).
    { intros w. exists w. simpl. unfold visible_within. rewrite Hvisible.
      by rewrite (proj2 (Z.leb_le t 10000)). }
    unfold upto.
    repeat (constructor;
            [split; [apply Hquiet|first [exact Hwait | by eexists]]|]).
    constructor. }
  destruct (run_calls_no_disk E upto (extend w0 l)) as [_ Hfiles2];
    [by repeat constructor|].
  rewrite Hupto in Hfiles2. cbn [fst] in Hfiles2.
  assert (Hf2 : w_files w2 = f) by (by rewrite Hfiles2, Hw0).
  destruct (perform_makedirs_ok E w2) as [w3' Hmk]; [by rewrite Hf2..|].
  pose proof (call_performs E _ w2 w3' (Hquiet _) Hmk) as Hmakedirs.
  destruct (run_calls_returns E after (extend w3' [(Makedirs "jules-scratch/verification" true, None)]))
    as [w' Hafter].
  { unfold after.
    repeat (constructor; [split; [apply Hquiet|by eexists]|]).
    constructor. }
  assert (Hverify : run_calls E (verify_themes_calls (Some id)) (extend w0 l)
                    = (w', Ok tt)).
  { change (verify_themes_calls (Some id))
      with (upto ++ [Makedirs "jules-scratch/verification" true] ++ after).
    apply (run_calls_returns_app E _ _ _ w2); [done|].
    by apply (run_calls_returns_app E _ _ _
                (extend w3' [(Makedirs "jules-scratch/verification" true,
                              None)])). }
  exists w'. rewrite (run_goes_on E _ w0 (extend w0 l) (Some id) Hlaunch Hfind).
  rewrite verify_themes_run_calls. split; [done|].
  apply run_calls_ok in Hverify as (_ & Hlog & Hfiles). split.
  - unfold calls. rewrite Hlog, fmap_app, returned_calls.
    apply elem_of_app. right. unfold verify_themes_calls.
    do 3 apply list_elem_of_further. apply list_elem_of_here.
  - rewrite Hfiles, Hw0. reflexivity.
Qed.

Lemma run_succeeds_witness :
  ∃ w',
    test_theme_switching (Demo.quiet [] [Demo.background]) (initial ∅ ∅)
    = (w', Ok tt) ∧
    Goto ("chrome-extension://" +:+ "abcdefgh" +:+ "/options.html")
      ∈ calls w' ∧
    w_files w'
    = written (Demo.quiet [] [Demo.background])
        (verify_themes_calls (Some "abcdefgh")) ∅.
Proof.
  apply (run_succeeds (Demo.quiet [] [Demo.background]) ∅ ∅ "abcdefgh" 120);
    [reflexivity | | discriminate | reflexivity | lia
    | reflexivity | reflexivity].
  right. exists None, [], Demo.background, [].
  split; [apply scan_no_match; constructor|].
  split; [reflexivity|]. split; [reflexivity|]. split; [constructor|].
  split; reflexivity.
Defined.

(** X10.  A run that ends normally met all of that: ["Theme"] was
    visible within 10000 milliseconds, discovery found a non-empty
    identifier in one of its two ways, and none of the launch calls, of
    the look at the pages and of the twelve steps for that identifier
    failed. *)
Theorem normal_end_needs (E : env) d f (w' : world) :
  test_theme_switching E (initial d f) = (w', Ok tt) →
  (∃ t, e_visible_after E (GetByText "Theme") = Some t ∧ t ≤ 10000) ∧
  ∃ id,
    discovers E id ∧ id ≠ "" ∧
    Forall (fun o => e_raises E o = None)
      (launch_calls E ++ ContextPages :: verify_themes_calls (Some id)).
Proof.
  intros Hrun.
  destruct (run_cases E (initial d f))
    as [(w0 & e & _ & Hr)|[(w0 & w1 & e & _ & _ & Hr)
                           |(w0 & w1 & v & Hl & Hf & Hr)]];
    rewrite Hr in Hrun; [done..|].
  rewrite launch_run_calls in Hl. apply run_calls_ok in Hl as (Hlaunch & _).
  apply find_extension_id_ok_inv in Hf as (Hpages & id & -> & Hid & Hdisc).
  rewrite verify_themes_run_calls in Hrun.
  destruct (run_calls_ok_perform E _ _ _
              (ExpectToBeVisible (GetByText "Theme") 10000) Hrun)
    as (wa & wb & Hwait).
  { unfold verify_themes_calls.
    do 4 apply list_elem_of_further. apply list_elem_of_here. }
  apply run_calls_ok in Hrun as (Hverify & _). split.
  - simpl in Hwait. unfold visible_within in Hwait.
    destruct (e_visible_after E (GetByText "Theme")) as [t|]; [|done].
    exists t. split; [done|].
    destruct (t <=? 10000) eqn:Ht; [|done]. by apply Z.leb_le.
  - exists id. split_and!; [done..|].
    apply Forall_app. split; [done|]. by constructor.
Qed.

Lemma normal_end_needs_witness :
  (∃ t, e_visible_after (Demo.quiet [Demo.tab] []) (GetByText "Theme")
        = Some t ∧ t ≤ 10000) ∧
  ∃ id,
    discovers (Demo.quiet [Demo.tab] []) id ∧ id ≠ "" ∧
    Forall (fun o => e_raises (Demo.quiet [Demo.tab] []) o = None)
      (launch_calls (Demo.quiet [Demo.tab] [])
       ++ ContextPages :: verify_themes_calls (Some id)).
Proof.
  apply (normal_end_needs (Demo.quiet [Demo.tab] []) ∅ ∅
           (test_theme_switching (Demo.quiet [Demo.tab] []) (initial ∅ ∅)).1).
  vm_compute. reflexivity.
Defined.

(** ** No call is made twice *)

Section no_retry.
Variable E : env.
Implicit Types (w : world) (ops : list op) (l : list (op * option exn)).

Lemma run_calls_calls ops w :
  ∃ l, w_log (run_calls E ops w).1 = w_log w ++ l ∧ l.*1 `prefix_of` ops.
Proof.
  destruct (run_calls_made E ops w) as (made & _ & Hmade).
  destruct (run_calls E ops w).2 as [[]|e].
  - destruct Hmade as [-> Hlog]. exists (returned ops). split; [done|].
    by rewrite returned_calls.
  - destruct Hmade as (o & rest & -> & Hlog).
    exists (returned made ++ [(o, Some e)]). split; [done|].
    rewrite fmap_app, returned_calls. exists rest. by rewrite <-app_assoc.
Qed.

Lemma prefix_NoDup_phase ops (made : list op) p :
  made `prefix_of` ops → NoDup ops → Forall (fun o => phase o = p) ops →
  NoDup made ∧ Forall (fun o => phase o = p) made.
Proof.
  intros [rest ->] [Hmade _]%NoDup_app [Hp _]%Forall_app. by split.
Qed.

Lemma NoDup_launch_calls : NoDup (launch_calls E).
Proof.
  unfold launch_calls.
  repeat (apply NoDup_cons; split;
          [rewrite ?elem_of_cons, elem_of_nil; intros H;
           repeat (destruct H as [H|H]; try discriminate H); done|]).
  constructor.
Qed.

Lemma NoDup_verify_themes_calls v : NoDup (verify_themes_calls v).
Proof.
  unfold verify_themes_calls.
  repeat (apply NoDup_cons; split;
          [rewrite ?elem_of_cons, elem_of_nil; intros H;
           repeat (destruct H as [H|H]; try discriminate H); done|]).
  constructor.
Qed.

(** The log of discovery: the look at the pages, the titles of an
    initial segment of them, and perhaps the look at the service
    workers. *)
Lemma find_extension_id_log w :
  ∃ r n tail,
    w_log (find_extension_id E w).1
    = w_log w ++ (ContextPages, r) :: titles_log 0 (take n (e_pages E))
        ++ tail ∧
    (tail = [] ∨ ∃ r', tail = [(ContextServiceWorkers, r')]).
Proof.
  unfold find_extension_id. unfold bind at 1.
  destruct (call_log E ContextPages w) as (r & Hlog & _).
  destruct (call E ContextPages w) as [w2 [[]|e]]; cbn [fst] in Hlog.
  2:{ exists r, 0%nat, []. split; [|by left]. simpl. by rewrite Hlog. }
  unfold bind at 1.
  destruct (scan_pages_prefix 0 (e_pages E) None w2) as [n Hn].
  destruct (scan_pages _ _ _ _) as [w3 [v1|e]]; cbn [fst] in Hn.
  2:{ exists r, n, []. split; [|by left].
      rewrite Hn. cbn [fst w_log extend]. rewrite Hlog, app_nil_r.
      by rewrite <-app_assoc. }
  assert (Hw3 : w_log w3
            = w_log w ++ (ContextPages, r)
                :: titles_log 0 (take n (e_pages E))).
  { rewrite Hn. cbn [w_log extend]. rewrite Hlog. by rewrite <-app_assoc. }
  unfold bind at 1. destruct (negb (Py.truthy v1)).
  - unfold bind at 1.
    destruct (call_log E ContextServiceWorkers w3) as (r' & Hlog' & _).
    destruct (call E ContextServiceWorkers w3) as [w4 [[]|e]];
      cbn [fst] in Hlog';
      (assert (Hw4 : w_log w4
                 = w_log w ++ (ContextPages, r)
                     :: titles_log 0 (take n (e_pages E))
                     ++ [(ContextServiceWorkers, r')]);
       [rewrite Hlog', Hw3; by rewrite <-app_assoc|]).
    + pose proof (scan_service_workers_world (e_service_workers E) v1 w4)
        as Hworld.
      destruct (scan_service_workers _ _ _) as [w5 [v2|e]];
        cbn [fst] in Hworld; subst w5.
      * exists r, n, [(ContextServiceWorkers, r')]. split; [|by right; eexists].
        by destruct (negb (Py.truthy v2)).
      * exists r, n, [(ContextServiceWorkers, r')]. split; [done|].
        by right; eexists.
    + exists r, n, [(ContextServiceWorkers, r')]. split; [done|].
      by right; eexists.
  - exists r, n, []. split; [|by left]. rewrite app_nil_r.
    unfold ret at 1. by destruct (negb (Py.truthy v1)).
Qed.

Lemma NoDup_discovery_calls n (tail : list (op * option exn)) :
  tail = [] ∨ (∃ r', tail = [(ContextServiceWorkers, r')]) →
  NoDup (ContextPages :: (titles_log 0 (take n (e_pages E))).*1 ++ tail.*1) ∧
  Forall (fun o => phase o = 1%nat)
    (ContextPages :: (titles_log 0 (take n (e_pages E))).*1 ++ tail.*1).
Proof.
  intros Htail.
  assert (Htitles : Forall (fun o => ∃ j, o = PageTitle j)
                      (titles_log 0 (take n (e_pages E))).*1).
  { apply Forall_forall. intros o [x [-> Hx]]%list_elem_of_fmap.
    apply titles_log_entries in Hx as (j & _ & Hop & _). by exists j. }
  assert (Htail' : Forall (fun o => o = ContextServiceWorkers) tail.*1).
  { destruct Htail as [->|[r' ->]]; by repeat constructor. }
  split.
  - apply NoDup_cons. split.
    + rewrite elem_of_app. intros [Hin|Hin].
      * rewrite Forall_forall in Htitles. by destruct (Htitles _ Hin).
      * rewrite Forall_forall in Htail'. by specialize (Htail' _ Hin).
    + apply NoDup_app. split_and!.
      * apply titles_log_NoDup.
      * intros o Ho Ho'. rewrite Forall_forall in Htitles, Htail'.
        destruct (Htitles _ Ho) as [j ->]. by specialize (Htail' _ Ho').
      * destruct Htail as [->|[r' ->]]; [constructor|apply NoDup_singleton].
  - constructor; [done|]. apply Forall_app. split.
    + eapply Forall_impl; [exact Htitles|]. by intros o [j ->].
    + eapply Forall_impl; [exact Htail'|]. by intros o ->.
Qed.

(** Calls of an earlier phase are not among calls of a later one. *)
Lemma NoDup_app_phases (l1 l2 : list op) q :
  NoDup l1 → Forall (fun o => (phase o < q)%nat) l1 →
  NoDup l2 ∧ Forall (fun o => phase o = q) l2 →
  NoDup (l1 ++ l2).
Proof.
  intros H1 Hp [H2 Hq]. apply NoDup_app. split_and!; [done| |done].
  intros o Ho1 Ho2. rewrite Forall_forall in Hp, Hq.
  apply Hp in Ho1. apply Hq in Ho2. lia.
Qed.
End no_retry.

(** X11.  No call is made twice in a run, whatever happens in it: the
    script has no retry, and its one loop with a call in it asks each
    page for its title at most once. *)
Theorem no_call_is_made_twice (E : env) d f :
  NoDup (calls (test_theme_switching E (initial d f)).1).
Proof.
  unfold calls.
  destruct (run_calls_calls E (launch_calls E) (initial d f))
    as (l0 & Hlog0 & Hpre0).
  rewrite <-launch_run_calls in Hlog0. cbn [w_log initial app] in Hlog0.
  destruct (prefix_NoDup_phase _ _ 0%nat Hpre0 (NoDup_launch_calls E))
    as [Hnodup0 Hphase0]; [by repeat constructor|].
  destruct (run_cases E (initial d f))
    as [(w0 & e & Hl & ->)|[(w0 & w1 & e & Hl & Hf & ->)
                            |(w0 & w1 & v & Hl & Hf & ->)]];
    rewrite Hl in Hlog0; cbn [fst] in *.
  - by rewrite Hlog0.
  - destruct (find_extension_id_log E w0) as (r & n & tail & Hlog1 & Htail).
    rewrite Hf in Hlog1. cbn [fst] in Hlog1.
    rewrite Hlog1, Hlog0, fmap_app, fmap_cons, fmap_app.
    apply (NoDup_app_phases _ _ 1); [done| |by apply NoDup_discovery_calls].
    eapply Forall_impl; [exact Hphase0|]. intros o ->. lia.
  - destruct (find_extension_id_log E w0) as (r & n & tail & Hlog1 & Htail).
    rewrite Hf in Hlog1. cbn [fst] in Hlog1.
    destruct (run_calls_calls E (verify_themes_calls v) w1)
      as (l2 & Hlog2 & Hpre2).
    rewrite verify_themes_run_calls, Hlog2, Hlog1, Hlog0.
    rewrite !fmap_app, fmap_cons, fmap_app.
    destruct (NoDup_discovery_calls E n tail Htail) as [Hnodup1 Hphase1].
    apply (NoDup_app_phases _ _ 2).
    + apply (NoDup_app_phases _ _ 1); [done| |done].
      eapply Forall_impl; [exact Hphase0|]. intros o ->. lia.
    + apply Forall_app. split.
      * eapply Forall_impl; [exact Hphase0|]. intros o ->. lia.
      * eapply Forall_impl; [exact Hphase1|]. intros o ->. lia.
    + apply (prefix_NoDup_phase (verify_themes_calls v)); [done| |].
      * apply NoDup_verify_themes_calls.
      * by repeat constructor.
Qed.

(** ** No output before the options page is seen *)


(** Until the wait has returned, the calls made are calls that leave
    the directories and the files of the world alone. *)
Lemma untouched_before_wait (E : env) d f :
  (ExpectToBeVisible (GetByText "Theme") 10000, None)
    ∉ w_log (test_theme_switching E (initial d f)).1 →
  w_dirs (test_theme_switching E (initial d f)).1 = d ∧
  w_files (test_theme_switching E (initial d f)).1 = f ∧
  Forall (fun o => touches_disk o = false)
    (calls (test_theme_switching E (initial d f)).1).
Proof.
  assert (Hearly : ∀ l : list (op * option exn),
    Forall (fun x => later_step x.1 = false) l →
    Forall (fun o => touches_disk o = false) l.*1).
  { intros l Hl. apply Forall_fmap. eapply Forall_impl; [exact Hl|].
    intros [o r]. simpl. by destruct o. }
  unfold calls.
  destruct (only_logs_launch E (initial d f)) as (l0 & Hw0).
  destruct (tracks_launch E (initial d f)) as (l0' & Hlog0 & Hearly0 & _).
  destruct (run_cases E (initial d f))
    as [(w0 & e & Hl & ->)|[(w0 & w1 & e & Hl & Hf & ->)
                            |(w0 & w1 & v & Hl & Hf & ->)]];
    rewrite Hl in Hw0, Hlog0; cbn [fst] in Hw0, Hlog0.
  - intros _. cbn [fst]. rewrite Hlog0. split_and!; [by subst w0..|].
    by apply Hearly.
  - destruct (only_logs_find_extension_id E w0) as (l1 & Hw1).
    destruct (tracks_find_extension_id E w0) as (l1' & Hlog1 & Hearly1 & _).
    rewrite Hf in Hw1, Hlog1. cbn [fst] in Hw1, Hlog1.
    intros _. cbn [fst]. rewrite Hlog1, Hlog0.
    split_and!; [by subst w1 w0..|].
    apply Hearly. by apply Forall_app.
  - destruct (only_logs_find_extension_id E w0) as (l1 & Hw1).
    destruct (tracks_find_extension_id E w0) as (l1' & Hlog1 & Hearly1 & _).
    rewrite Hf in Hw1, Hlog1. cbn [fst] in Hw1, Hlog1.
    rewrite verify_themes_run_calls.
    set (upto := [Print ("Extension ID: " +:+ format v);
                  Print ("Navigating to: " +:+ options_page_url v);
                  NewPage; Goto (options_page_url v);
                  ExpectToBeVisible (GetByText "Theme") 10000]).
    set (after := [Makedirs "jules-scratch/verification" true;
      Screenshot "jules-scratch/verification/01_default_theme.png";
      Click (GetByRole "button" "Light");
      Screenshot "jules-scratch/verification/02_light_theme.png";
      Click (GetByRole "button" "Dark");
      Screenshot "jules-scratch/verification/03_dark_theme.png";
      ContextClose]).
    change (verify_themes_calls v) with (upto ++ after).
    rewrite run_calls_app. unfold bind.
    assert (Hupto_ops : Forall (fun o => touches_disk o = false) upto)
      by by repeat constructor.
    destruct (run_calls_no_disk E upto w1 Hupto_ops) as [Hdirs Hfiles].
    destruct (run_calls_calls E upto w1) as (l2 & Hlog2 & Hpre2).
    destruct (run_calls E upto w1) as [w2 [[]|e]] eqn:Hupto; cbn [fst] in *.
    + intros Hnot. destruct Hnot.
      apply run_calls_ok in Hupto as (_ & Hlog & _).
      destruct (run_calls_calls E after w2) as (l3 & Hlog3 & _).
      rewrite Hlog3, Hlog, !elem_of_app. left; right.
      unfold upto, returned. simpl.
      do 4 apply list_elem_of_further. apply list_elem_of_here.
    + intros _. rewrite Hdirs, Hfiles, Hlog2, Hlog1, Hlog0.
      split_and!; [by subst w1 w0..|].
      rewrite fmap_app. apply Forall_app. split.
      * apply Hearly. by apply Forall_app.
      * destruct Hpre2 as [rest Hrest]. rewrite Hrest in Hupto_ops.
        by apply Forall_app in Hupto_ops as [? _].
Qed.

(** X12.  The script puts none of its output on disk before the options
    page has shown ["Theme"]: in a run in which the wait did not return
    (it timed out, or the run failed before it), [os.makedirs] and
    [page.screenshot] are not called, the output directory
    [jules-scratch/verification] is there after the run only if it was
    there before, and the files at the three screenshot paths are as they
    were. *)
Theorem no_trace_unless_theme_was_seen (E : env) d f :
  (ExpectToBeVisible (GetByText "Theme") 10000, None)
    ∉ w_log (test_theme_switching E (initial d f)).1 →
  (∀ o, o ∈ calls (test_theme_switching E (initial d f)).1 →
        ∀ name exist_ok path,
          o ≠ Makedirs name exist_ok ∧ o ≠ Screenshot path) ∧
  (["jules-scratch"; "verification"]
     ∈ w_dirs (test_theme_switching E (initial d f)).1
   ↔ ["jules-scratch"; "verification"] ∈ d) ∧
  (∀ shot,
     shot ∈ ["jules-scratch/verification/01_default_theme.png";
             "jules-scratch/verification/02_light_theme.png";
             "jules-scratch/verification/03_dark_theme.png"] →
     w_files (test_theme_switching E (initial d f)).1 !! shot = f !! shot).
Proof.
  intros (Hdirs & Hfiles & Hcalls)%untouched_before_wait.
  rewrite Hdirs, Hfiles. split_and!; [|done..].
  intros o Ho name exist_ok path. rewrite Forall_forall in Hcalls.
  specialize (Hcalls o Ho). by split; intros ->.
Qed.

Lemma no_trace_unless_theme_was_seen_witness :
  let E := Env (fun p => p) [Demo.tab] [] (fun _ => Some 10001)
             (Exn AssertionError "Locator expected to be visible")
             (fun _ => []) (fun _ => None) in
  let w' := (test_theme_switching E
               (initial ∅ {[ "jules-scratch/verification/02_light_theme.png"
                             := [Byte.x00] ]})).1 in
  (["jules-scratch"; "verification"] ∈ w_dirs w'
   ↔ ["jules-scratch"; "verification"] ∈ (∅ : gset (list string))) ∧
  w_files w' !! "jules-scratch/verification/02_light_theme.png"
  = Some [Byte.x00].
Proof.
  intros E w'.
  destruct (no_trace_unless_theme_was_seen E ∅
              {[ "jules-scratch/verification/02_light_theme.png"
                 := [Byte.x00] ]})
    as (_ & Hdir & Hshots).
  - vm_compute. intros Hin.
    repeat (apply elem_of_cons in Hin as [Hin|Hin]; [discriminate Hin|]).
    by apply elem_of_nil in Hin.
  - split; [exact Hdir|]. unfold w'. rewrite Hshots.
    + apply lookup_singleton_eq.
    + apply list_elem_of_further, list_elem_of_here.
Defined.
